(** * ozp-backend: the default access-control plugin

    A shallow embedding of [plugins/default_access_control/main.py]
    (class [PluginMain]) together with the fragment of Python's data model
    that the plugin exercises, followed by the properties of the marking
    tokenizer, the marking validator and the access decision. *)

From Stdlib Require Import ZArith NArith List Lia Bool.
From Stdlib Require Import Strings.String Strings.Ascii.
From stdpp Require Import base option list gmap.

Set Default Proof Using "Type".
Set Warnings "-register-all".

(** * The Python fragment *)

Module Py.

(** A Python [str] is a sequence of Unicode code points. *)
Definition str := list N.

(** Source literals are ASCII; [py "SECRET"] is the corresponding [str]. *)
Definition py (s : String.string) : str :=
  map N_of_ascii (list_ascii_of_string s).
Arguments py s%_string.

(** The built-in exceptions that the plugin can meet.  An exception of a
    subclass is given by its class as an [except] clause sees it: the
    [JSONDecodeError] of [json] is a [ValueError]; a [RecursionError] is
    not. *)
Inductive exn :=
| AttributeError
| IndexError
| KeyError (key : str)
| OverflowError
| RecursionError
| TypeError
| ValueError.

(** Evaluating an expression either yields a value or raises. *)
Inductive outcome (A : Type) :=
| Ret (a : A)
| Raise (e : exn).
Arguments Ret {A} a.
Arguments Raise {A} e.

Definition obind {A B} (o : outcome A) (k : A -> outcome B) : outcome B :=
  match o with
  | Ret a => k a
  | Raise e => Raise e
  end.

(** ** Strings *)

(** [s.startswith(p)] *)
Fixpoint startswith (p s : str) : bool :=
  match p, s with
  | [], _ => true
  | _ :: _, [] => false
  | a :: p', b :: s' => (a =? b)%N && startswith p' s'
  end.

(** [x in s] for two strings: [x] occurs in [s] as a contiguous block. *)
Fixpoint str_contains (s x : str) : bool :=
  startswith x s ||
  match s with
  | [] => false
  | _ :: s' => str_contains s' x
  end.

Definition cons_head (c : N) (segs : list str) : list str :=
  match segs with
  | [] => [[c]]
  | seg :: rest => (c :: seg) :: rest
  end.

(** The scan behind [s.split(sep)] for a non-empty [sep]: the string is
    read left to right, every leftmost occurrence of [sep] closes the
    current segment, and the characters of a matched separator are
    skipped ([skip] counts those still to be skipped). *)
Fixpoint split_scan (sep : str) (skip : nat) (s : str) : list str :=
  match s with
  | [] => [[]]
  | c :: s' =>
      match skip with
      | S k => split_scan sep k s'
      | O =>
          if startswith sep s
          then [] :: split_scan sep (length sep - 1) s'
          else cons_head c (split_scan sep 0 s')
      end
  end.

(** [s.split(sep)]; an empty separator is a [ValueError]. *)
Definition str_split (s sep : str) : outcome (list str) :=
  match sep with
  | [] => Raise ValueError
  | _ :: _ => Ret (split_scan sep 0 s)
  end.

(** [sep.join(segs)] *)
Fixpoint str_join (sep : str) (segs : list str) : str :=
  match segs with
  | [] => []
  | [seg] => seg
  | seg :: rest => seg ++ sep ++ str_join sep rest
  end.

(** ** Values *)

(** The values that [json.loads] can produce and that the token table is
    written with.  Floats are kept abstract: the plugin never looks at the
    value of a number, only [+=] can combine two of them. *)
Section Values.

Context {float : Type}.

Inductive value :=
| VNone
| VBool (b : bool)
| VInt (z : Z)
| VFloat (f : float)
| VStr (s : str)
| VList (l : list value)
| VDict (d : list (str * value)).

(** A [dict] with string keys is an association list whose first binding of
    a key is the live one. *)
Definition dict := list (str * value).

Definition str_eqb (a b : str) : bool := bool_decide (a = b).

Fixpoint dict_lookup (k : str) (d : dict) : option value :=
  match d with
  | [] => None
  | (k', v) :: d' => if str_eqb k k' then Some v else dict_lookup k d'
  end.

(** [d.get(k)]: [None] when the key is absent. *)
Definition dict_get (d : dict) (k : str) : value :=
  match dict_lookup k d with
  | Some v => v
  | None => VNone
  end.

(** [d[k] = v] *)
Fixpoint dict_set (d : dict) (k : str) (v : value) : dict :=
  match d with
  | [] => [(k, v)]
  | (k', v') :: d' =>
      if str_eqb k k' then (k, v) :: d' else (k', v') :: dict_set d' k v
  end.

(** [v is None] *)
Definition is_none (v : value) : bool :=
  match v with
  | VNone => true
  | _ => false
  end.

(** [v == s] for a string [s]: a string equals only the same string. *)
Definition eq_str (v : value) (s : str) : bool :=
  match v with
  | VStr s' => str_eqb s' s
  | _ => false
  end.

(** [v[k]] for a string [k]: only a [dict] can be subscripted by a string. *)
Definition getitem (v : value) (k : str) : outcome value :=
  match v with
  | VDict d =>
      match dict_lookup k d with
      | Some x => Ret x
      | None => Raise (KeyError k)
      end
  | _ => Raise TypeError
  end.

(** [x in c] for a string [x]: element of a list, key of a dict, substring
    of a string; the other values are not containers. *)
Definition contains (c : value) (x : str) : outcome bool :=
  match c with
  | VList l => Ret (existsb (fun v => eq_str v x) l)
  | VDict d => Ret (bool_decide (is_Some (dict_lookup x d)))
  | VStr s => Ret (str_contains s x)
  | _ => Raise TypeError
  end.

(** Iterating a value: the elements of a list, the characters of a string,
    the keys of a dict. *)
Definition iterate (v : value) : outcome (list value) :=
  match v with
  | VList l => Ret l
  | VStr s => Ret (map (fun c => VStr [c]) s)
  | VDict d => Ret (map (fun kv => VStr (fst kv)) d)
  | _ => Raise TypeError
  end.

Variable float_add : float -> float -> float.
(** [float(z)], an [OverflowError] when [z] is too large for a double. *)
Variable int_to_float : Z -> option float.

Inductive number :=
| NInt (z : Z)
| NFloat (f : float).

(** [bool] is a subclass of [int]. *)
Definition as_number (v : value) : option number :=
  match v with
  | VBool b => Some (NInt (Z.b2z b))
  | VInt z => Some (NInt z)
  | VFloat f => Some (NFloat f)
  | _ => None
  end.

Definition coerce (z : Z) : outcome float :=
  match int_to_float z with
  | Some f => Ret f
  | None => Raise OverflowError
  end.

Definition number_add (a b : number) : outcome value :=
  match a, b with
  | NInt x, NInt y => Ret (VInt (x + y))
  | NFloat f, NFloat g => Ret (VFloat (float_add f g))
  | NInt x, NFloat g => obind (coerce x) (fun f => Ret (VFloat (float_add f g)))
  | NFloat f, NInt y => obind (coerce y) (fun g => Ret (VFloat (float_add f g)))
  end.

(** [a += b], yielding the new binding of [a]: a list is extended by any
    iterable, strings concatenate, numbers add. *)
Definition iadd (a b : value) : outcome value :=
  match a with
  | VList l => obind (iterate b) (fun l' => Ret (VList (l ++ l')))
  | VStr s =>
      match b with
      | VStr s' => Ret (VStr (s ++ s'))
      | _ => Raise TypeError
      end
  | VNone | VDict _ => Raise TypeError
  | VBool _ | VInt _ | VFloat _ =>
      match as_number a, as_number b with
      | Some x, Some y => number_add x y
      | _, _ => Raise TypeError
      end
  end.

(** [v.upper()]: only strings have the method. *)
Variable upper : str -> str.

Definition call_upper (v : value) : outcome str :=
  match v with
  | VStr s => Ret (upper s)
  | _ => Raise AttributeError
  end.

(** [**v]: the argument must be a mapping. *)
Definition kwargs (v : value) : outcome dict :=
  match v with
  | VDict d => Ret d
  | _ => Raise TypeError
  end.

End Values.

Arguments value : clear implicits.
Arguments dict : clear implicits.
Arguments number : clear implicits.

(** [not x] for an optional string: [None] and [''] are falsy. *)
Definition falsy (x : option str) : bool :=
  match x with
  | None | Some [] => true
  | Some (_ :: _) => false
  end.

(** ASCII case mapping; [str.upper] acts like this on ASCII text. *)
Definition ascii_upper (s : str) : str :=
  map (fun c => if ((97 <=? c) && (c <=? 122))%N then (c - 32)%N else c) s.

End Py.

Import Py.

(** * The token classes *)

(** The plugin imports its token classes from the sibling module [tokens]
    (as [all_tokens]).  The source of that module is not available, so the
    classes follow the specification. *)
Module all_tokens.
Section Tokens.

Context {float : Type}.

Inductive Kind :=
| Classification
| DisseminationControl
| Unknown
| InvalidFormat.

(** Modelled from the spec: the classes of [tokens.py].  A token has a
    kind, a short name, a long name and a level; the level is present only
    on a Classification token.  An attribute that was not given is [None]. *)
Record Token := {
  kind : Kind;
  short_name : value float;
  long_name : value float;
  level : value float
}.

(** Modelled from the spec: the constructors of [tokens.py], called with
    keyword arguments ([InvalidFormatToken()], [UnknownToken(long_name=..)],
    [ClassificationToken] applied to the unpacked [data]).  Every keyword
    is optional and the constructor stores what it is given. *)
Definition new (k : Kind) (kw : dict float) : Token :=
  {| kind := k;
     short_name := dict_get kw (py "short_name");
     long_name := dict_get kw (py "long_name");
     level := match k with
              | Classification => dict_get kw (py "level")
              | _ => VNone
              end |}.

Definition ClassificationToken := new Classification.
Definition DisseminationControlToken := new DisseminationControl.
Definition UnknownToken := new Unknown.
Definition InvalidFormatToken := new InvalidFormat.

(** [isinstance(t, all_tokens.ClassificationToken)] *)
Definition is_ClassificationToken (t : Token) : bool :=
  match kind t with
  | Classification => true
  | _ => false
  end.

End Tokens.
Arguments Token : clear implicits.
End all_tokens.

(** * The plugin *)

Module PluginMain.
Import all_tokens.

Section State.

Context {float host : Type}.

#[local] Abbreviation Token := (all_tokens.Token float).

(** The attributes of a plugin instance. *)
Record instance := {
  settings : option host;
  requests : option host;
  tokens : list Token
}.

Inductive log_level := ERROR.

(** What a method call can see and change: the instance it is called on
    and the records handed to the module's logger. *)
Record world := {
  self : instance;
  log : list (log_level * str)
}.

Definition M (A : Type) : Type := world -> outcome A * world.

Definition ret {A} (a : A) : M A := fun w => (Ret a, w).

Definition bind {A B} (m : M A) (k : A -> M B) : M B :=
  fun w =>
    match m w with
    | (Ret a, w') => k a w'
    | (Raise e, w') => (Raise e, w')
    end.

Definition lift {A} (o : outcome A) : M A := fun w => (o, w).

(** [try: body  except <the exceptions selected by handler>: ...] *)
Definition try_except {A} (body : M A) (handler : exn -> option (M A)) : M A :=
  fun w =>
    match body w with
    | (Ret a, w') => (Ret a, w')
    | (Raise e, w') =>
        match handler e with
        | Some h => h w'
        | None => (Raise e, w')
        end
    end.

End State.

Notation "x <- m ;; k" := (bind m (fun x => k))
  (at level 100, m at next level, right associativity).
Notation "m ;; k" := (bind m (fun _ => k))
  (at level 100, right associativity).

Section Plugin.

Context {float host : Type}.

(** Python's float arithmetic, [str.upper] and [json.loads] are library
    code.  [json_loads s] is what [json.loads] does on the text [s]: it
    returns the decoded value or it raises, a [ValueError] when [s] is not
    JSON and something else when the decoder itself gives up (a
    [RecursionError] on text that is nested too deep). *)
Variable float_add : float -> float -> float.
Variable int_to_float : Z -> option float.
Variable upper : str -> str.
Variable json_loads : str -> outcome (value float).

#[local] Abbreviation value := (Py.value float).
#[local] Abbreviation dict := (Py.dict float).
#[local] Abbreviation Token := (all_tokens.Token float).
#[local] Abbreviation M := (@M float host).

Fixpoint mapM {A B} (f : A -> M B) (l : list A) : M (list B) :=
  match l with
  | [] => ret []
  | a :: l' => b <- f a ;; bs <- mapM f l' ;; ret (b :: bs)
  end.

Fixpoint foldM {A B} (f : B -> A -> M B) (b : B) (l : list A) : M B :=
  match l with
  | [] => ret b
  | a :: l' => b' <- f b a ;; foldM f b' l'
  end.

(** [[i for i in l if keep(i)]] *)
Fixpoint filterM {A} (keep : A -> M bool) (l : list A) : M (list A) :=
  match l with
  | [] => ret []
  | a :: l' =>
      b <- keep a ;; r <- filterM keep l' ;; ret (if b then a :: r else r)
  end.

Definition get_tokens : M (list Token) := fun w => (Ret (tokens (self w)), w).

Definition set_settings (s : option host) : M unit :=
  fun w =>
    (Ret tt,
     {| self := {| settings := s; requests := requests (self w);
                   tokens := tokens (self w) |};
        log := log w |}).

Definition set_requests (r : option host) : M unit :=
  fun w =>
    (Ret tt,
     {| self := {| settings := settings (self w); requests := r;
                   tokens := tokens (self w) |};
        log := log w |}).

Definition set_tokens (ts : list Token) : M unit :=
  fun w =>
    (Ret tt,
     {| self := {| settings := settings (self w);
                   requests := requests (self w); tokens := ts |};
        log := log w |}).

(** [logger.error(msg)] *)
Definition logger_error (msg : str) : M unit :=
  fun w => (Ret tt, {| self := self w; log := log w ++ [(ERROR, msg)] |}).

(** [json.loads(s)]; anything but a string is a [TypeError]. *)
Definition loads (s : option str) : outcome value :=
  match s with
  | None => Raise TypeError
  | Some s => json_loads s
  end.

(** ['{0!s}'.format(x)] *)
Definition format_s (x : option str) : str :=
  match x with
  | Some s => s
  | None => py "None"
  end.

(** [l[0]] *)
Definition first {A} (l : list A) : outcome A :=
  match l with
  | [] => Raise IndexError
  | a :: _ => Ret a
  end.

Definition classification (short long : String.string) (lvl : Z) : dict :=
  [(py "type", VStr (py "Classification"));
   (py "data", VDict [(py "short_name", VStr (py short));
                      (py "long_name", VStr (py long));
                      (py "level", VInt lvl)])].

Definition tokens_list : list dict :=
  [ classification "U" "Unclassified" 1;
    classification "C" "Confidential" 2;
    classification "S" "Secret" 3;
    classification "TS" "Top Secret" 4;
    [(py "type", VStr (py "DisseminationControl"));
     (py "data", VDict [(py "short_name", VStr (py "FOUO"));
                        (py "long_name", VStr (py "FOR OFFICIAL USE ONLY"))])] ].

Definition _convert_dict_to_token (input : dict) : M Token :=
  let type := dict_get input (py "type") in
  let data := dict_get input (py "data") in
  if is_none type || is_none data then ret (InvalidFormatToken [])
  else if eq_str type (py "Classification") then
    kw <- lift (kwargs data) ;; ret (ClassificationToken kw)
  else if eq_str type (py "DisseminationControl") then
    kw <- lift (kwargs data) ;; ret (DisseminationControlToken kw)
  else ret (InvalidFormatToken []).

Definition __init__ (settings requests : option host) : M unit :=
  set_settings settings ;;
  set_requests requests ;;
  ts <- mapM _convert_dict_to_token tokens_list ;;
  set_tokens ts.

(** One round of [for token in self.tokens: lookup[name(token).upper()] = token] *)
Definition register (name : Token -> value)
    (lookup : gmap str Token) (token : Token) : M (gmap str Token) :=
  k <- lift (call_upper upper (name token)) ;;
  ret (<[k := token]> lookup).

Definition _split_tokens (input_marking delimiter : str) : M (list Token) :=
  ts <- get_tokens ;;
  long_name_lookup <- foldM (register long_name) ∅ ts ;;
  ts <- get_tokens ;;
  short_name_lookup <- foldM (register short_name) ∅ ts ;;
  markings <- lift (str_split input_marking delimiter) ;;
  mapM (fun marking =>
          match long_name_lookup !! upper marking with
          | Some token => ret token
          | None =>
              match short_name_lookup !! upper marking with
              | Some token => ret token
              | None => ret (UnknownToken [(py "long_name", VStr marking)])
              end
          end) markings.

Definition has_access (user_accesses_json marking : option str) : M bool :=
  ret true.

Definition future_has_access (user_accesses_json marking : option str)
  : M bool :=
  match marking with
  | None | Some [] => ret false
  | Some marking =>
      markings <- lift (str_split marking (py "//")) ;;
      parsed <-
        try_except
          (user_accesses <- lift (loads user_accesses_json) ;;
           ret (inl user_accesses))
          (fun e =>
             match e with
             | ValueError =>
                 Some (logger_error
                         (py "Error parsing JSON data: "
                            ++ format_s user_accesses_json) ;;
                       ret (inr false))
             | _ => None
             end) ;;
      match parsed with
      | inr answer => ret answer
      | inl user_accesses =>
          clearances <- lift (getitem user_accesses (py "clearances")) ;;
          required_clearance <- lift (first markings) ;;
          held <- lift (contains clearances required_clearance) ;;
          if negb held then ret false
          else
            user_controls <-
              lift (getitem user_accesses (py "formal_accesses")) ;;
            visas <- lift (getitem user_accesses (py "visas")) ;;
            user_controls <-
              lift (iadd float_add int_to_float user_controls visas) ;;
            let required_controls := tail markings in
            missing_controls <-
              filterM (fun i =>
                         b <- lift (contains user_controls i) ;; ret (negb b))
                      required_controls ;;
            match missing_controls with
            | [] => ret true
            | _ :: _ => ret false
            end
      end
  end.

Definition validate_marking (marking : option str) : M bool :=
  match marking with
  | None | Some [] => ret false
  | Some marking =>
      ts <- _split_tokens marking (py "//") ;;
      t0 <- lift (first ts) ;;
      if negb (is_ClassificationToken t0) then ret false else ret true
  end.

End Plugin.
End PluginMain.

(** * A reference JSON decoder *)

(** The plugin is verified for every [json.loads]; the examples need one.
    [JsonRef.loads] reads the JSON documents whose numbers are integer
    literals and whose strings have no [\u] escape, as [json.loads] does
    (whitespace, escapes, control characters and duplicate keys included),
    and raises [RecursionError] as the scanner of [json] does, on entering
    an array or an object for which the interpreter has no room left.  It
    raises [ValueError] on every other text and is used on documents of
    that fragment, and on opening brackets, only. *)
Module JsonRef.

Abbreviation value := (Py.value Empty_set).

Definition ch (a : ascii) : N := N_of_ascii a.
Arguments ch a%_char.

Definition quote : N := 34.
Definition backslash : N := 92.

Definition is_ws (c : N) : bool :=
  (c =? 32)%N || (c =? 9)%N || (c =? 10)%N || (c =? 13)%N.

Definition is_digit (c : N) : bool := (48 <=? c)%N && (c <=? 57)%N.

Fixpoint skip_ws (s : str) : str :=
  match s with
  | c :: s' => if is_ws c then skip_ws s' else s
  | [] => []
  end.

Fixpoint digits (acc : Z) (s : str) : Z * str :=
  match s with
  | c :: s' =>
      if is_digit c then digits (10 * acc + Z.of_N (c - 48)) s' else (acc, s)
  | [] => (acc, [])
  end.

(** A fraction or an exponent makes the literal a float. *)
Definition ends_integer (s : str) : bool :=
  match s with
  | c :: _ => negb ((c =? ch ".")%N || (c =? ch "e")%N || (c =? ch "E")%N)
  | [] => true
  end.

Definition natural (s : str) : option (Z * str) :=
  match s with
  | c :: s' =>
      if (c =? ch "0")%N then
        if ends_integer s' then Some (0%Z, s') else None
      else if is_digit c then
        let '(z, r) := digits 0 s in
        if ends_integer r then Some (z, r) else None
      else None
  | [] => None
  end.

Definition integer (s : str) : option (Z * str) :=
  match s with
  | c :: s' =>
      if (c =? ch "-")%N then
        match natural s' with
        | Some (z, r) => Some ((- z)%Z, r)
        | None => None
        end
      else natural s
  | [] => None
  end.

Definition unescape (c : N) : option N :=
  if (c =? quote)%N then Some quote
  else if (c =? backslash)%N then Some backslash
  else if (c =? ch "/")%N then Some (ch "/")
  else if (c =? ch "b")%N then Some 8%N
  else if (c =? ch "f")%N then Some 12%N
  else if (c =? ch "n")%N then Some 10%N
  else if (c =? ch "r")%N then Some 13%N
  else if (c =? ch "t")%N then Some 9%N
  else None.

(** The body of a string literal, after its opening quote. *)
Fixpoint chars (s : str) : option (str * str) :=
  match s with
  | [] => None
  | c :: s' =>
      if (c =? quote)%N then Some ([], s')
      else if (c =? backslash)%N then
        match s' with
        | e :: s'' =>
            match unescape e, chars s'' with
            | Some c', Some (body, r) => Some (c' :: body, r)
            | _, _ => None
            end
        | [] => None
        end
      else if (c <? 32)%N then None
      else
        match chars s' with
        | Some (body, r) => Some (c :: body, r)
        | None => None
        end
  end.

(** What the scanner makes of a text: a value and the rest of the text,
    a text that is not JSON, or containers nested deeper than there is
    room for. *)
Inductive scanned (A : Type) :=
| Found (a : A) (rest : str)
| Invalid
| TooDeep.
Arguments Found {A} a rest.
Arguments Invalid {A}.
Arguments TooDeep {A}.

Definition keyword (k : String.string) (v : value) (s : str)
  : scanned value :=
  if startswith (py k) s then Found v (drop (length (py k)) s) else Invalid.

(** [room] is the number of arrays and objects that may still be entered,
    one inside the other. *)
Fixpoint element (fuel room : nat) (s : str) {struct fuel} : scanned value :=
  match fuel with
  | O => Invalid
  | S fuel =>
      match s with
      | [] => Invalid
      | c :: s' =>
          if (c =? quote)%N then
            match chars s' with
            | Some (body, r) => Found (VStr body) r
            | None => Invalid
            end
          else if (c =? ch "[")%N then
            match room with
            | O => TooDeep
            | S room =>
                match skip_ws s' with
                | c' :: r =>
                    if (c' =? ch "]")%N then Found (VList []) r
                    else
                      match elements fuel room (c' :: r) with
                      | Found l r' => Found (VList l) r'
                      | Invalid => Invalid
                      | TooDeep => TooDeep
                      end
                | [] => Invalid
                end
            end
          else if (c =? ch "{")%N then
            match room with
            | O => TooDeep
            | S room =>
                match skip_ws s' with
                | c' :: r =>
                    if (c' =? ch "}")%N then Found (VDict []) r
                    else
                      match members fuel room [] (c' :: r) with
                      | Found d r' => Found (VDict d) r'
                      | Invalid => Invalid
                      | TooDeep => TooDeep
                      end
                | [] => Invalid
                end
            end
          else if (c =? ch "n")%N then keyword "null" VNone s
          else if (c =? ch "t")%N then keyword "true" (VBool true) s
          else if (c =? ch "f")%N then keyword "false" (VBool false) s
          else
            match integer s with
            | Some (z, r) => Found (VInt z) r
            | None => Invalid
            end
      end
  end

(** The elements of an array up to and including the closing bracket. *)
with elements (fuel room : nat) (s : str) {struct fuel}
  : scanned (list value) :=
  match fuel with
  | O => Invalid
  | S fuel =>
      match element fuel room s with
      | Found v r =>
          match skip_ws r with
          | c :: r' =>
              if (c =? ch ",")%N then
                match elements fuel room (skip_ws r') with
                | Found l r'' => Found (v :: l) r''
                | Invalid => Invalid
                | TooDeep => TooDeep
                end
              else if (c =? ch "]")%N then Found [v] r'
              else Invalid
          | [] => Invalid
          end
      | Invalid => Invalid
      | TooDeep => TooDeep
      end
  end

(** The members of an object up to and including the closing brace; a key
    that comes again replaces the earlier value. *)
with members (fuel room : nat) (d : list (str * value)) (s : str)
    {struct fuel} : scanned (list (str * value)) :=
  match fuel with
  | O => Invalid
  | S fuel =>
      match s with
      | c :: s' =>
          if (c =? quote)%N then
            match chars s' with
            | Some (k, r) =>
                match skip_ws r with
                | c' :: r' =>
                    if (c' =? ch ":")%N then
                      match element fuel room (skip_ws r') with
                      | Found v r'' =>
                          let d' := dict_set d k v in
                          match skip_ws r'' with
                          | c'' :: r3 =>
                              if (c'' =? ch ",")%N then
                                members fuel room d' (skip_ws r3)
                              else if (c'' =? ch "}")%N then Found d' r3
                              else Invalid
                          | [] => Invalid
                          end
                      | Invalid => Invalid
                      | TooDeep => TooDeep
                      end
                    else Invalid
                | [] => Invalid
                end
            | None => Invalid
            end
          else Invalid
      | [] => Invalid
      end
  end.

(** The document that a text holds, read with room for [room] containers
    one inside the other.  An element takes a character at least and the
    elements of an array start where the first of them does, so that the
    fuel is enough. *)
Definition scan (room : nat) (s : str) : outcome value :=
  match element (S (2 * length s)) room (skip_ws s) with
  | Found v r =>
      match skip_ws r with
      | [] => Ret v
      | _ :: _ => Raise ValueError
      end
  | Invalid => Raise ValueError
  | TooDeep => Raise RecursionError
  end.

(** The interpreter raises [RecursionError] when its recursion limit is
    met, 1000 frames unless it has been set, the frames of the callers
    counted in.  The examples leave the scanner room for 990 containers. *)
Definition room : nat := 990.

Definition loads (s : str) : outcome value := scan room s.

Definition float_add (f g : Empty_set) : Empty_set := f.
Definition int_to_float (z : Z) : option Empty_set := None.

End JsonRef.

(** * The registry and the tokenizer as the specification words them *)

Module Spec.
Import all_tokens.

Section Registry.

Context {float : Type}.
Variable upper : str -> str.

#[local] Abbreviation value := (Py.value float).
#[local] Abbreviation Token := (all_tokens.Token float).

(** [t] is filed under [key] in the map built from the attribute [name]. *)
Definition filed (name : Token -> value) (key : str) (t : Token) : bool :=
  match name t with
  | VStr s => str_eqb (upper s) key
  | _ => false
  end.

(** The registry maps an uppercased name to a token; when two definitions
    share a name the later one is the registered one. *)
Definition registered (name : Token -> value) (ts : list Token) (key : str)
  : option Token :=
  last (List.filter (filed name key) ts).

(** [lookup]: case-insensitive, long names first, then short names, and an
    [UnknownToken] carrying the original text when both fail. *)
Definition lookup (ts : list Token) (text : str) : Token :=
  match registered long_name ts (upper text) with
  | Some t => t
  | None =>
      match registered short_name ts (upper text) with
      | Some t => t
      | None => UnknownToken [(py "long_name", VStr text)]
      end
  end.

(** A segment that neither map knows. *)
Definition unmatched (ts : list Token) (text : str) : Prop :=
  registered long_name ts (upper text) = None /\
  registered short_name ts (upper text) = None.

(** The registry can be searched when every token has both names. *)
Definition has_names (t : Token) : bool :=
  match short_name t, long_name t with
  | VStr _, VStr _ => true
  | _, _ => false
  end.

End Registry.
End Spec.

(** * Calls on an engine *)

Module Engine.
Import all_tokens PluginMain.

Section Calls.

Context {float host : Type}.
Variable float_add : float -> float -> float.
Variable int_to_float : Z -> option float.
Variable upper : str -> str.
Variable json_loads : str -> outcome (value float).

#[local] Abbreviation world := (@PluginMain.world float host).

(** The per-request operations of the plugin with their arguments. *)
Inductive call :=
| HasAccess (user_accesses_json marking : option str)
| FutureHasAccess (user_accesses_json marking : option str)
| ValidateMarking (marking : option str)
| SplitTokens (input_marking delimiter : str).

Inductive answer :=
| Decision (o : outcome bool)
| Tokens (o : outcome (list (Token float))).

Definition run (c : call) (w : world) : answer * world :=
  match c with
  | HasAccess p m =>
      let '(o, w') := has_access p m w in (Decision o, w')
  | FutureHasAccess p m =>
      let '(o, w') :=
        future_has_access float_add int_to_float json_loads p m w in
      (Decision o, w')
  | ValidateMarking m =>
      let '(o, w') := validate_marking upper m w in (Decision o, w')
  | SplitTokens m d =>
      let '(o, w') := _split_tokens upper m d w in (Tokens o, w')
  end.

(** The world after a sequence of calls. *)
Definition exec (cs : list call) (w : world) : world :=
  fold_left (fun w c => snd (run c w)) cs w.

End Calls.

(** An instance before [__init__] has run, and the engine that
    [PluginMain(settings, requests)] makes of it. *)
Definition blank {float host : Type} : @PluginMain.world float host :=
  {| self := {| settings := None; requests := None; tokens := [] |};
     log := [] |}.

Definition engine : @PluginMain.world Empty_set unit :=
  snd (__init__ None None blank).

(** JSON text is written with apostrophes in place of double quotes. *)
Definition json (s : String.string) : str :=
  map (fun c => if (c =? 39)%N then JsonRef.quote else c) (py s).
Arguments json s%_string.

(** The reference instance: ASCII text, integer numbers. *)
Definition decide_access (user_accesses_json marking : option str)
  : @PluginMain.M Empty_set unit bool :=
  future_has_access JsonRef.float_add JsonRef.int_to_float JsonRef.loads
    user_accesses_json marking.

Definition validate (marking : option str)
  : @PluginMain.M Empty_set unit bool :=
  validate_marking ascii_upper marking.

Definition tokenize (marking : str)
  : @PluginMain.M Empty_set unit (list (Token Empty_set)) :=
  _split_tokens ascii_upper marking (py "//").

(** Sample profiles. *)
Definition profile_S : str :=
  json "{'clearances': ['S'], 'formal_accesses': [], 'visas': []}".

Definition profile_S_ABC : str :=
  json "{'clearances': ['S'], 'formal_accesses': ['ABC'], 'visas': []}".

Definition profile_S_ABC_XYZ : str :=
  json "{'clearances': ['S'], 'formal_accesses': ['ABC'], 'visas': ['XYZ']}".

Definition accesses_S_ABC_XYZ : value Empty_set :=
  VDict [(py "clearances", VList [VStr (py "S")]);
         (py "formal_accesses", VList [VStr (py "ABC")]);
         (py "visas", VList [VStr (py "XYZ")])].

(** [n] opening brackets: the text ['[' * n]. *)
Definition brackets (n : nat) : str := repeat (JsonRef.ch "[") n.

(** A configuration definition with a type and no data. *)
Definition bare_classification : dict Empty_set :=
  [(py "type", VStr (py "Classification"))].

(** The tokens of the engine. *)
Definition token_S : Token Empty_set :=
  ClassificationToken [(py "short_name", VStr (py "S"));
                       (py "long_name", VStr (py "Secret"));
                       (py "level", VInt 3)].

Definition token_FOUO : Token Empty_set :=
  DisseminationControlToken
    [(py "short_name", VStr (py "FOUO"));
     (py "long_name", VStr (py "FOR OFFICIAL USE ONLY"))].

Definition unknown (text : String.string) : Token Empty_set :=
  UnknownToken [(py "long_name", VStr (py text))].

End Engine.

(** * Notions used to state the properties *)

Module Contract.
Import all_tokens PluginMain.

Section Notions.

Context {float host : Type}.

#[local] Abbreviation value := (Py.value float).
#[local] Abbreviation dict := (Py.dict float).
#[local] Abbreviation Token := (all_tokens.Token float).
#[local] Abbreviation world := (@PluginMain.world float host).

(** [v] is an object that has the key [k]. *)
Definition has_field (v : value) (k : str) : bool :=
  match v with
  | VDict d => bool_decide (is_Some (dict_lookup k d))
  | _ => false
  end.

(** [v] is an object whose key [k] holds an array. *)
Definition array_field (v : value) (k : str) : option (list value) :=
  match v with
  | VDict d =>
      match dict_lookup k d with
      | Some (VList l) => Some l
      | _ => None
      end
  | _ => None
  end.

(** [v] is an object whose [clearances], [formal_accesses] and [visas] are
    arrays. *)
Definition profile_arrays (v : value) : bool :=
  bool_decide (is_Some (array_field v (py "clearances"))) &&
  bool_decide (is_Some (array_field v (py "formal_accesses"))) &&
  bool_decide (is_Some (array_field v (py "visas"))).

(** The [data] of a configuration definition is absent or a mapping. *)
Definition data_well_formed (input : dict) : bool :=
  match dict_get input (py "data") with
  | VNone | VDict _ => true
  | _ => false
  end.

(** The token that a configuration definition stands for. *)
Definition converts_to (input : dict) (t : Token) : Prop :=
  let type := dict_get input (py "type") in
  let data := dict_get input (py "data") in
  (type = VNone \/ data = VNone -> t = InvalidFormatToken []) /\
  (forall d,
     type = VStr (py "Classification") -> data = VDict d ->
     t = ClassificationToken d /\ kind t = Classification /\
     level t = dict_get d (py "level")) /\
  (forall d,
     type = VStr (py "DisseminationControl") -> data = VDict d ->
     t = DisseminationControlToken d /\ kind t = DisseminationControl) /\
  (type <> VStr (py "Classification") ->
   type <> VStr (py "DisseminationControl") ->
   t = InvalidFormatToken []).

(** A computation that leaves the instance as it is and whose outcome is
    decided by the instance alone. *)
Definition readonly {A} (m : M A) : Prop :=
  (forall w : world, self (snd (m w)) = self w) /\
  (forall w1 w2 : world, self w1 = self w2 -> fst (m w1) = fst (m w2)).

End Notions.
End Contract.
(** * More notions: construction and sample engines *)

Module Construction.
Import all_tokens PluginMain.

Section Notions.

Context {float : Type}.

#[local] Abbreviation dict := (Py.dict float).

(** The [type] of a definition is one of the two that the plugin knows. *)
Definition recognised (input : dict) : bool :=
  eq_str (dict_get input (py "type")) (py "Classification") ||
  eq_str (dict_get input (py "type")) (py "DisseminationControl").

(** The definitions on which the conversion unpacks [data] although it is
    no mapping: a known type, and a [data] that is neither [None] nor a
    [dict]. *)
Definition unpacks_no_mapping (input : dict) : bool :=
  recognised input &&
  match dict_get input (py "data") with
  | VNone | VDict _ => false
  | _ => true
  end.

End Notions.

(** An engine whose token list holds an [InvalidFormatToken]. *)
Definition nameless_engine : @PluginMain.world Empty_set unit :=
  {| self := {| settings := None; requests := None;
                tokens := [Engine.token_S; InvalidFormatToken []] |};
     log := [] |}.

End Construction.

(** * More of the Python fragment: text and effects *)

Module PyText.

(** [s.replace(old, new)]: every occurrence of [old], found from the left
    without overlap, becomes [new]; with an empty [old], [new] goes in
    front of the string and after each of its characters. *)
Definition str_replace (s old new : str) : str :=
  match old with
  | [] => new ++ concat (map (fun c => c :: new) s)
  | _ :: _ => str_join new (split_scan old 0 s)
  end.

Fixpoint uint_digits (d : Decimal.uint) : str :=
  match d with
  | Decimal.Nil => []
  | Decimal.D0 d => 48%N :: uint_digits d
  | Decimal.D1 d => 49%N :: uint_digits d
  | Decimal.D2 d => 50%N :: uint_digits d
  | Decimal.D3 d => 51%N :: uint_digits d
  | Decimal.D4 d => 52%N :: uint_digits d
  | Decimal.D5 d => 53%N :: uint_digits d
  | Decimal.D6 d => 54%N :: uint_digits d
  | Decimal.D7 d => 55%N :: uint_digits d
  | Decimal.D8 d => 56%N :: uint_digits d
  | Decimal.D9 d => 57%N :: uint_digits d
  end.

(** [str(n)] for a natural number: its decimal digits. *)
Definition str_of_N (n : N) : str := uint_digits (N.to_uint n).

(** ASCII case mapping; [str.lower] acts like this on ASCII text. *)
Definition ascii_lower (s : str) : str :=
  map (fun c => if ((65 <=? c) && (c <=? 90))%N then (c + 32)%N else c) s.

End PyText.

(** Code that works on a store and calls into code that is not at hand:
    next to the built-in exceptions there are the exceptions [E] of the
    callees, and a computation passes the state [S] along. *)
Module Eff.

Section Effects.

Context {E S : Type}.

Inductive raised :=
| Builtin (e : exn)
| Foreign (e : E).

Inductive result (A : Type) :=
| Returned (a : A)
| Raised (r : raised).

Definition M (A : Type) : Type := S -> result A * S.

Definition ret {A} (a : A) : M A := fun s => (Returned A a, s).

Definition bind {A B} (m : M A) (k : A -> M B) : M B :=
  fun s =>
    match m s with
    | (Returned _ a, s') => k a s'
    | (Raised _ r, s') => (Raised B r, s')
    end.

(** An expression of the Python fragment. *)
Definition lift {A} (o : outcome A) : M A :=
  fun s =>
    match o with
    | Ret a => (Returned A a, s)
    | Raise e => (Raised A (Builtin e), s)
    end.

End Effects.

Arguments raised : clear implicits.
Arguments result : clear implicits.
Arguments M : clear implicits.
Arguments Returned {E A} a.
Arguments Raised {E A} r.

Declare Scope eff_scope.
Notation "x <- m ;; k" := (bind m (fun x => k))
  (at level 100, m at next level, right associativity) : eff_scope.
Notation "m ;; k" := (bind m (fun _ => k))
  (at level 100, right associativity) : eff_scope.

End Eff.

(** * PKI authentication: [ozpcenter/auth/pkiauth.py] *)

Module pkiauth.
Import PyText Eff.
#[local] Open Scope eff_scope.

(** [_preprocess_dn]: drop the first character, cut at the slashes, turn
    the pieces around and join them with a comma and a space. *)
Definition _preprocess_dn (original_dn : str) : outcome str :=
  let dn := drop 1 original_dn in
  obind (str_split dn (py "/")) (fun dn =>
  let dn := rev dn in
  let dn := str_join (py ", ") dn in
  Ret dn).

Inductive log_level := INFO | WARNING | ERROR.

Section Authentication.

(** The models, the queries on them and the helpers of [ozpcenter.utils]
    are not at hand: [Profile] and [User] objects are known by the
    attributes that the code reads and writes, a query is any computation
    on the database [db] that returns or raises, and the setting
    [OZP['PREPROCESS_DN']] is a boolean.  [lower] is [str.lower]. *)
Context {db E Profile User : Type}.

Variable profile_user : Profile -> User.
Variable profile_issuer_dn : Profile -> option str.
Variable set_issuer_dn : Profile -> str -> Profile.
Variable user_username : User -> str.
Variable user_is_active : User -> bool.

Variable Profile_filter_dn_iexact_first :
  str -> db -> result E (option Profile) * db.
Variable Profile_save : Profile -> db -> result E unit * db.
Variable User_filter_username_count : str -> db -> result E N * db.
Variable User_filter_username_startswith_count :
  str -> db -> result E N * db.
Variable Profile_create_user :
  str -> str -> str -> str -> db -> result E Profile * db.
Variable find_between : str -> str -> str -> outcome str.
Variable lower : str -> str.
Variable PREPROCESS_DN : bool.

(** The headers of a request and whether it came over HTTPS. *)
Record request := {
  is_secure : bool;
  META : gmap str str
}.

Record world := {
  database : db;
  log : list (log_level * str)
}.

#[local] Abbreviation M := (Eff.M E world).

Definition logger (level : log_level) (msg : str) : M unit :=
  fun w =>
    (Returned tt, {| database := database w; log := log w ++ [(level, msg)] |}).

(** A query runs on the database and leaves the log alone. *)
Definition query {A} (q : db -> result E A * db) : M A :=
  fun w =>
    let '(r, d) := q (database w) in (r, {| database := d; log := log w |}).

Definition _get_profile_by_dn (dn issuer_dn : str) : M (option Profile) :=
  profile <- query (Profile_filter_dn_iexact_first dn) ;;
  match profile with
  | Some profile =>
      if negb (user_is_active (profile_user profile)) then
        logger WARNING
          (py "User " ++ dn ++ py " tried to login but is inactive") ;;
        ret None
      else
        profile <-
          (if negb (bool_decide (profile_issuer_dn profile = Some issuer_dn))
           then
             logger INFO
               (py "updating issuer dn for user "
                  ++ user_username (profile_user profile)) ;;
             let profile := set_issuer_dn profile issuer_dn in
             query (Profile_save profile) ;;
             ret profile
           else ret profile) ;;
        ret (Some profile)
  | None =>
      logger INFO (py "creating new user for dn: " ++ dn) ;;
      cn <-
        (if str_contains dn (py "CN=")
         then lift (find_between dn (py "CN=") (py ","))
         else ret dn) ;;
      let username := take 30 cn in
      let username := str_replace username (py " ") (py "_") in
      let username := str_replace username (py "'") [] in
      let username := lower username in
      count <- query (User_filter_username_count username) ;;
      username <-
        (if negb (count =? 0)%N then
           let new_username := take 27 username in
           count <-
             query (User_filter_username_startswith_count new_username) ;;
           let new_username :=
             new_username ++ py "_" ++ str_of_N (count + 1) in
           ret new_username
         else ret username) ;;
      count <- query (User_filter_username_count username) ;;
      if negb (count =? 0)%N then
        logger ERROR
          (py "Cannot create new user for dn " ++ dn ++ py ", username "
             ++ username ++ py " already exists") ;;
        ret None
      else
        profile <- query (Profile_create_user username cn dn issuer_dn) ;;
        logger INFO
          (py "created new profile for user "
             ++ user_username (profile_user profile)) ;;
        ret (Some profile)
  end.

(** [PkiAuthentication.authenticate]; the pair [(profile.user, None)] that
    it returns on success is given by its user. *)
Definition authenticate (request : request) : M (option User) :=
  if negb (is_secure request) then
    logger ERROR
      (py "Insecure request (not HTTPS): incompatible with PkiAuthentication") ;;
    ret None
  else
    let authentication_status :=
      META request !! py "HTTP_X_SSL_AUTHENTICATED" in
    match authentication_status with
    | None | Some [] =>
        logger ERROR (py "Missing header: HTTP_X_SSL_AUTHENTICATED") ;;
        ret None
    | Some authentication_status =>
        if negb (str_eqb authentication_status (py "SUCCESS")) then
          logger ERROR
            (py "Value of HTTP_X_SSL_AUTHENTICATED header not SUCCESS, got "
               ++ authentication_status ++ py " instead") ;;
          ret None
        else
          let dn := META request !! py "HTTP_X_SSL_USER_DN" in
          let issuer_dn := META request !! py "HTTP_X_SSL_ISSUER_DN" in
          match dn with
          | None | Some [] =>
              logger ERROR (py "HTTP_X_SSL_USER_DN missing from header") ;;
              ret None
          | Some dn =>
              match issuer_dn with
              | None | Some [] =>
                  logger ERROR
                    (py "HTTP_X_SSL_ISSUER_DN missing from header") ;;
                  ret None
              | Some issuer_dn =>
                  dns <-
                    (if PREPROCESS_DN then
                       dn <- lift (_preprocess_dn dn) ;;
                       issuer_dn <- lift (_preprocess_dn issuer_dn) ;;
                       ret (dn, issuer_dn)
                     else ret (dn, issuer_dn)) ;;
                  let '(dn, issuer_dn) := dns in
                  logger INFO
                    (py "Attempting to authenticate user with dn: " ++ dn
                       ++ py " and issuer dn: " ++ issuer_dn) ;;
                  profile <- _get_profile_by_dn dn issuer_dn ;;
                  match profile with
                  | Some profile =>
                      logger INFO
                        (py "found user "
                           ++ user_username (profile_user profile)
                           ++ py ", authentication succeeded") ;;
                      ret (Some (profile_user profile))
                  | None =>
                      logger ERROR
                        (py "Failed to find/create user for dn " ++ dn
                           ++ py ". Authentication failed") ;;
                      ret None
                  end
              end
          end
    end.

(** A computation that only adds records to the log. *)
Definition log_grows {A} (m : M A) : Prop :=
  forall w, exists records, log (snd (m w)) = log w ++ records.

(** The two DN headers of a request that passes the checks on the
    transport and on the headers. *)
Definition presented (request : request) : option (str * str) :=
  if is_secure request then
    match META request !! py "HTTP_X_SSL_AUTHENTICATED",
          META request !! py "HTTP_X_SSL_USER_DN",
          META request !! py "HTTP_X_SSL_ISSUER_DN" with
    | Some status, Some (c :: dn), Some (c' :: issuer_dn) =>
        if str_eqb status (py "SUCCESS")
        then Some (c :: dn, c' :: issuer_dn)
        else None
    | _, _, _ => None
    end
  else None.

End Authentication.

End pkiauth.

(** * The user's library: [ozpcenter/api/library/views.py] *)

Module library_views.
Import Eff.
#[local] Open Scope eff_scope.

Section Responses.

Context {float : Type}.

(** What a [Response] carries: a text or the data of the request. *)
Inductive body :=
| Text (s : str)
| Data (v : value float).

Record Response := {
  data : body;
  status : Z
}.

End Responses.

Arguments body : clear implicits.
Arguments Response : clear implicits.

Definition HTTP_200_OK : Z := 200.
Definition HTTP_400_BAD_REQUEST : Z := 400.

Section UserLibraryViewSet.

(** [model_access.get_library_entry_by_id],
    [listing_model_access.get_listing_by_id] and the model's [save] are not
    at hand: each is any computation on the database [db] that returns or
    raises.  An entry is known by the two attributes that are assigned. *)
Context {float db E Instance Listing : Type}.

Variable get_library_entry_by_id : value float -> db -> result E Instance * db.
Variable get_listing_by_id :
  str -> value float -> db -> result E Listing * db.
Variable set_folder : Instance -> value float -> Instance.
Variable set_listing : Instance -> Listing -> Instance.
Variable save : Instance -> db -> result E unit * db.

#[local] Abbreviation value := (Py.value float).
#[local] Abbreviation Response := (Response float).
#[local] Abbreviation M := (Eff.M E db).

(** [Response('Missing listing and/or id from request data',
    status=status.HTTP_400_BAD_REQUEST)] *)
Definition missing_listing_or_id : Response :=
  {| data := Text (py "Missing listing and/or id from request data");
     status := HTTP_400_BAD_REQUEST |}.

(** The loop under [# validate input]: the response of the first entry
    that lacks [listing] or [id], if there is one. *)
Fixpoint validate_input (items : list value) : M (option Response) :=
  match items with
  | [] => ret None
  | i :: items =>
      has_listing <- lift (contains i (py "listing")) ;;
      missing <-
        (if negb has_listing then ret true
         else has_id <- lift (contains i (py "id")) ;; ret (negb has_id)) ;;
      if (missing : bool) then ret (Some missing_listing_or_id)
      else validate_input items
  end.

(** The body of the loop under [# update each instance]. *)
Definition update_instance (username : str) (i : value) : M unit :=
  id <- lift (getitem i (py "id")) ;;
  instance <- get_library_entry_by_id id ;;
  folder <- lift (getitem i (py "folder")) ;;
  let instance := set_folder instance folder in
  listing <- lift (getitem i (py "listing")) ;;
  listing_id <- lift (getitem listing (py "id")) ;;
  listing <- get_listing_by_id username listing_id ;;
  let instance := set_listing instance listing in
  save instance.

Fixpoint update_each (username : str) (items : list value) : M unit :=
  match items with
  | [] => ret tt
  | i :: items => update_instance username i ;; update_each username items
  end.

(** [UserLibraryViewSet.update_all], given [request.user.username] and
    [request.data]. *)
Definition update_all (username : str) (request_data : value) : M Response :=
  items <- lift (iterate request_data) ;;
  rejected <- validate_input items ;;
  match rejected with
  | Some response => ret response
  | None =>
      items <- lift (iterate request_data) ;;
      update_each username items ;;
      ret {| data := Data request_data; status := HTTP_200_OK |}
  end.

(** An entry that the validation lets through: [listing] and [id] are
    found in it. *)
Definition accepted (i : value) : bool :=
  match contains i (py "listing"), contains i (py "id") with
  | Ret true, Ret true => true
  | _, _ => false
  end.

(** An entry on which the validation answers that something is missing. *)
Definition rejected (i : value) : bool :=
  match contains i (py "listing") with
  | Ret false => true
  | Ret true =>
      match contains i (py "id") with
      | Ret false => true
      | _ => false
      end
  | Raise _ => false
  end.

End UserLibraryViewSet.

End library_views.

(** * Sample collaborators for the examples *)

Module Samples.
Import PyText Eff.

(** ** A directory of profiles kept in a list *)

Record SUser := { su_name : str; su_active : bool }.

Record SProfile := {
  sp_dn : str;
  sp_issuer : option str;
  sp_user : SUser
}.

Definition directory := list SProfile.

Definition with_issuer (p : SProfile) (issuer_dn : str) : SProfile :=
  {| sp_dn := sp_dn p; sp_issuer := Some issuer_dn; sp_user := sp_user p |}.

Definition first_by_dn (dn : str) (d : directory)
  : result Empty_set (option SProfile) * directory :=
  (Returned
     (List.find (fun p => str_eqb (ascii_lower (sp_dn p)) (ascii_lower dn)) d),
   d).

Definition save_profile (p : SProfile) (d : directory)
  : result Empty_set unit * directory :=
  (Returned tt,
   map (fun q => if str_eqb (sp_dn q) (sp_dn p) then p else q) d).

Definition count_username (u : str) (d : directory)
  : result Empty_set N * directory :=
  (Returned
     (N.of_nat (length (List.filter (fun p => str_eqb (su_name (sp_user p)) u) d))),
   d).

Definition count_username_startswith (u : str) (d : directory)
  : result Empty_set N * directory :=
  (Returned
     (N.of_nat
        (length (List.filter (fun p => startswith u (su_name (sp_user p))) d))),
   d).

Definition create_user (username display_name dn issuer_dn : str)
    (d : directory) : result Empty_set SProfile * directory :=
  let p := {| sp_dn := dn; sp_issuer := Some issuer_dn;
              sp_user := {| su_name := username; su_active := true |} |} in
  (Returned p, d ++ [p]).

(** The text between the first [start] and the next [stop]. *)
Definition between (s start stop : str) : outcome str :=
  match split_scan start 0 s with
  | _ :: after :: _ =>
      match split_scan stop 0 after with
      | found :: _ => Ret found
      | [] => Raise IndexError
      end
  | _ => Raise IndexError
  end.

Definition sample_authenticate (preprocess : bool)
    (r : pkiauth.request)
  : Eff.M Empty_set (@pkiauth.world directory) (option SUser) :=
  pkiauth.authenticate sp_user sp_issuer with_issuer su_name su_active
    first_by_dn save_profile count_username count_username_startswith
    create_user between ascii_lower preprocess r.

Definition jdoe : SProfile :=
  {| sp_dn := py "CN=John Doe, O=Org, C=US";
     sp_issuer := Some (py "CN=Authority, C=US");
     sp_user := {| su_name := py "john_doe"; su_active := true |} |}.

Definition retired : SProfile :=
  {| sp_dn := py "CN=Old Hand, O=Org, C=US";
     sp_issuer := Some (py "CN=Authority, C=US");
     sp_user := {| su_name := py "old_hand"; su_active := false |} |}.

Definition office : @pkiauth.world directory :=
  {| pkiauth.database := [jdoe; retired]; pkiauth.log := [] |}.

Definition headers (status dn issuer_dn : String.string) : gmap str str :=
  <[py "HTTP_X_SSL_AUTHENTICATED" := py status]>
    (<[py "HTTP_X_SSL_USER_DN" := py dn]>
       (<[py "HTTP_X_SSL_ISSUER_DN" := py issuer_dn]> ∅)).

Definition request_of (secure : bool) (status dn issuer_dn : String.string)
  : pkiauth.request :=
  {| pkiauth.is_secure := secure;
     pkiauth.META := headers status dn issuer_dn |}.

(** ** A library kept in a list of saved entries *)

Record SEntry := {
  se_id : Z;
  se_folder : value Empty_set;
  se_listing : Z
}.

Definition shelf := list SEntry.

Definition entry_by_id (id : value Empty_set) (s : shelf)
  : result unit SEntry * shelf :=
  match id with
  | VInt z =>
      match List.find (fun e => (se_id e =? z)%Z) s with
      | Some e => (Returned e, s)
      | None => (Raised (Foreign tt), s)
      end
  | _ => (Raised (Foreign tt), s)
  end.

Definition listing_by_id (username : str) (id : value Empty_set) (s : shelf)
  : result unit Z * shelf :=
  match id with
  | VInt z => (Returned z, s)
  | _ => (Raised (Foreign tt), s)
  end.

Definition put_folder (e : SEntry) (f : value Empty_set) : SEntry :=
  {| se_id := se_id e; se_folder := f; se_listing := se_listing e |}.

Definition put_listing (e : SEntry) (l : Z) : SEntry :=
  {| se_id := se_id e; se_folder := se_folder e; se_listing := l |}.

Definition save_entry (e : SEntry) (s : shelf) : result unit unit * shelf :=
  (Returned tt, map (fun x => if (se_id x =? se_id e)%Z then e else x) s).

Definition sample_update_all (request_data : value Empty_set)
  : Eff.M unit shelf (library_views.Response Empty_set) :=
  library_views.update_all entry_by_id listing_by_id put_folder put_listing
    save_entry (py "jdoe") request_data.

Definition two_entries : shelf :=
  [ {| se_id := 1; se_folder := VNone; se_listing := 10 |};
    {| se_id := 2; se_folder := VNone; se_listing := 20 |} ].

End Samples.

(** * Facts about the Python fragment *)

Module PyFacts.
Import Py.

Lemma startswith_app (p r : str) : startswith p (p ++ r) = true.
Proof.
  induction p as [|a p IH]; simpl; [reflexivity|].
  rewrite N.eqb_refl. exact IH.
Qed.

Lemma startswith_inv (p s : str) :
  startswith p s = true -> exists r, s = p ++ r.
Proof.
  revert s. induction p as [|a p IH]; intros s H.
  - exists s. reflexivity.
  - destruct s as [|b s]; simpl in H; [discriminate|].
    apply andb_true_iff in H as [Hab Hps].
    apply N.eqb_eq in Hab as ->.
    destruct (IH _ Hps) as [r ->]. exists r. reflexivity.
Qed.

Lemma startswith_extend (p s r : str) :
  startswith p s = true -> startswith p (s ++ r) = true.
Proof.
  intros H. destruct (startswith_inv _ _ H) as [r' ->].
  rewrite <- app_assoc. apply startswith_app.
Qed.

Lemma split_scan_skip (sep : str) (k : nat) (s : str) :
  k <= length s -> split_scan sep k s = split_scan sep 0 (drop k s).
Proof.
  revert k. induction s as [|c s IH]; intros k Hk.
  - destruct k; [reflexivity|]. simpl in Hk. lia.
  - destruct k as [|k]; [reflexivity|].
    simpl in Hk. change (split_scan sep (S k) (c :: s)) with (split_scan sep k s).
    rewrite IH by lia. reflexivity.
Qed.

Lemma split_scan_at_sep (sep r : str) :
  sep <> [] -> split_scan sep 0 (sep ++ r) = [] :: split_scan sep 0 r.
Proof.
  intros Hsep. destruct sep as [|c sep']; [congruence|].
  change ((c :: sep') ++ r) with (c :: (sep' ++ r)).
  cbn [split_scan].
  change (c :: (sep' ++ r)) with ((c :: sep') ++ r).
  rewrite startswith_app. f_equal.
  rewrite split_scan_skip.
  - f_equal. simpl. rewrite Nat.sub_0_r. apply drop_app_length.
  - simpl. rewrite length_app. lia.
Qed.

Lemma split_scan_step (sep : str) (c : N) (s : str) :
  startswith sep (c :: s) = false ->
  split_scan sep 0 (c :: s) = cons_head c (split_scan sep 0 s).
Proof. intros H. cbn [split_scan]. rewrite H. reflexivity. Qed.

Lemma split_scan_cons (sep : str) (s : str) :
  exists seg rest, split_scan sep 0 s = seg :: rest.
Proof.
  destruct s as [|c s]; [by eexists _, _|].
  cbn [split_scan]. destruct (startswith sep (c :: s)); [by eexists _, _|].
  destruct (split_scan sep 0 s); by eexists _, _.
Qed.

Lemma str_join_cons_head (sep : str) (c : N) (segs : list str) :
  segs <> [] -> str_join sep (cons_head c segs) = c :: str_join sep segs.
Proof. destruct segs as [|seg [|seg' rest]]; [congruence|reflexivity..]. Qed.

(** Splitting loses nothing: putting the separator back between the
    segments gives the string again. *)
Lemma str_join_split_scan (sep s : str) :
  sep <> [] -> str_join sep (split_scan sep 0 s) = s.
Proof.
  intros Hsep.
  remember (length s) as n eqn:Hn. revert s Hn.
  induction n as [n IH] using lt_wf_ind. intros s Hn.
  destruct s as [|c s]; [reflexivity|].
  destruct (startswith sep (c :: s)) eqn:Hp.
  - destruct (startswith_inv _ _ Hp) as [r Hr]. rewrite Hr.
    rewrite split_scan_at_sep by assumption.
    destruct (split_scan_cons sep r) as (seg & rest & Hsplit).
    assert (Hr' : str_join sep (split_scan sep 0 r) = r).
    { apply (IH (length r)); [|reflexivity].
      subst n. rewrite Hr, length_app.
      destruct sep; [congruence|simpl; lia]. }
    rewrite Hsplit.
    change (str_join sep ([] :: seg :: rest))
      with (sep ++ str_join sep (seg :: rest)).
    by rewrite <- Hsplit, Hr'.
  - rewrite split_scan_step by assumption.
    destruct (split_scan_cons sep s) as (seg & rest & Hsplit).
    rewrite str_join_cons_head by (rewrite Hsplit; discriminate).
    f_equal. apply (IH (length s)); [subst n; simpl; lia|reflexivity].
Qed.

Lemma split_scan_head_prefix (sep s seg : str) (rest : list str) :
  sep <> [] -> split_scan sep 0 s = seg :: rest -> exists r, s = seg ++ r.
Proof.
  intros Hsep Hsplit.
  pose proof (str_join_split_scan sep s Hsep) as Hj. rewrite Hsplit in Hj.
  destruct rest as [|seg' rest]; simpl in Hj.
  - exists []. by rewrite app_nil_r.
  - eexists. symmetry. exact Hj.
Qed.

(** No segment holds the separator. *)
Lemma split_scan_free (sep s : str) :
  sep <> [] ->
  Forall (fun seg => str_contains seg sep = false) (split_scan sep 0 s).
Proof.
  intros Hsep.
  remember (length s) as n eqn:Hn. revert s Hn.
  induction n as [n IH] using lt_wf_ind. intros s Hn.
  assert (Hnil : str_contains [] sep = false).
  { destruct sep; [congruence|reflexivity]. }
  destruct s as [|c s]; [by constructor|].
  destruct (startswith sep (c :: s)) eqn:Hp.
  - destruct (startswith_inv _ _ Hp) as [r Hr]. rewrite Hr.
    rewrite split_scan_at_sep by assumption.
    constructor; [assumption|].
    apply (IH (length r)); [|reflexivity].
    subst n. rewrite Hr, length_app. destruct sep; [congruence|simpl; lia].
  - rewrite split_scan_step by assumption.
    pose proof (IH (length s) ltac:(subst n; simpl; lia) s eq_refl) as Hfree.
    destruct (split_scan_cons sep s) as (seg & rest & Hsplit).
    rewrite Hsplit in Hfree |- *.
    inversion Hfree as [|? ? Hseg Hrest]; subst.
    constructor; [|assumption].
    cbn [cons_head str_contains]. rewrite Hseg, orb_false_r.
    destruct (startswith sep (c :: seg)) eqn:Hcs; [|reflexivity].
    destruct (split_scan_head_prefix _ _ _ _ Hsep Hsplit) as [r ->].
    rewrite <- Hp. symmetry.
    change (c :: seg ++ r) with ((c :: seg) ++ r).
    by apply startswith_extend.
Qed.

Lemma str_split_slashes (s : str) :
  str_split s (py "//") = Ret (split_scan (py "//") 0 s).
Proof. reflexivity. Qed.

End PyFacts.

(** * The token registry and the tokenizer *)

Module TokenizerFacts.
Import Py all_tokens PluginMain PyFacts.

Section Facts.

Context {float host : Type}.
Variable upper : str -> str.

#[local] Abbreviation value := (Py.value float).
#[local] Abbreviation Token := (all_tokens.Token float).
#[local] Abbreviation world := (@PluginMain.world float host).

Lemma str_eqb_eq (a b : str) : str_eqb a b = true <-> a = b.
Proof. unfold str_eqb. by rewrite bool_decide_eq_true. Qed.

Lemma last_filter_cons {A} (f : A -> bool) (a : A) (l : list A) :
  last (List.filter f (a :: l)) =
  match last (List.filter f l) with
  | Some x => Some x
  | None => if f a then Some a else None
  end.
Proof.
  simpl. destruct (f a); [|by destruct (last (List.filter f l))].
  destruct (List.filter f l) as [|b l']; [reflexivity|].
  rewrite last_cons. by destruct (last (b :: l')).
Qed.

Lemma registered_cons (name : Token -> value) (t : Token) (ts : list Token)
    (key : str) :
  Spec.registered upper name (t :: ts) key =
  match Spec.registered upper name ts key with
  | Some x => Some x
  | None => if Spec.filed upper name key t then Some t else None
  end.
Proof. apply last_filter_cons. Qed.

Lemma registered_filed (name : Token -> value) (ts : list Token) (key : str)
    (t : Token) :
  Spec.registered upper name ts key = Some t ->
  t ∈ ts /\ Spec.filed upper name key t = true.
Proof.
  unfold Spec.registered. intros H.
  apply last_Some in H as [l' H].
  assert (Hin : In t (List.filter (Spec.filed upper name key) ts)).
  { rewrite H. apply in_app_iff. right. by left. }
  apply filter_In in Hin as [Hin Hf]. split; [|exact Hf].
  by apply list_elem_of_In.
Qed.

Lemma registered_None (name : Token -> value) (ts : list Token) (key : str) :
  Spec.registered upper name ts key = None <->
  forall t, t ∈ ts -> Spec.filed upper name key t = false.
Proof.
  unfold Spec.registered. rewrite last_None. split.
  - intros H t Hin. destruct (Spec.filed upper name key t) eqn:Hf; [|done].
    assert (Hin' : In t (List.filter (Spec.filed upper name key) ts)).
    { apply filter_In. split; [by apply list_elem_of_In|done]. }
    rewrite H in Hin'. destruct Hin'.
  - intros H. induction ts as [|t ts IH]; [reflexivity|].
    simpl. rewrite (H t) by by left.
    apply IH. intros t' Hin. apply H. by right.
Qed.

(** The loop that fills a lookup dict: it ends without an exception when
    every token has the name as a string, and the dict then holds, for each
    key, the token registered under it. *)
Lemma foldM_register (name : Token -> value) (ts : list Token)
    (d : gmap str Token) (w : world) :
  Forall (fun t => exists s, name t = VStr s) ts ->
  exists d',
    foldM (register upper name) d ts w = (Ret d', w) /\
    forall key,
      d' !! key =
      match Spec.registered upper name ts key with
      | Some t => Some t
      | None => d !! key
      end.
Proof.
  intros Hnames. revert d.
  induction Hnames as [|t ts [s Hs] _ IH]; intros d.
  - exists d. split; [reflexivity|]. intros key. reflexivity.
  - destruct (IH (<[upper s := t]> d)) as (d' & Hrun & Hd').
    exists d'. split.
    + cbn [foldM]. unfold bind at 1. unfold register at 1.
      unfold bind, lift, ret, call_upper. rewrite Hs. exact Hrun.
    + intros key. rewrite Hd', registered_cons.
      destruct (Spec.registered upper name ts key); [reflexivity|].
      unfold Spec.filed. rewrite Hs, lookup_insert.
      unfold str_eqb. destruct (decide (upper s = key)) as [Heq|Hne].
      * by rewrite bool_decide_eq_true_2.
      * by rewrite bool_decide_eq_false_2.
Qed.

Lemma has_names_long (ts : list Token) :
  forallb Spec.has_names ts = true ->
  Forall (fun t => exists s, long_name t = VStr s) ts.
Proof.
  rewrite forallb_forall, Forall_forall. intros H t Hin.
  specialize (H t (proj1 (list_elem_of_In _ _) Hin)). unfold Spec.has_names in H.
  destruct (short_name t), (long_name t); try discriminate. by eexists.
Qed.

Lemma has_names_short (ts : list Token) :
  forallb Spec.has_names ts = true ->
  Forall (fun t => exists s, short_name t = VStr s) ts.
Proof.
  rewrite forallb_forall, Forall_forall. intros H t Hin.
  specialize (H t (proj1 (list_elem_of_In _ _) Hin)). unfold Spec.has_names in H.
  destruct (short_name t); try discriminate. by eexists.
Qed.

Lemma mapM_pure {A B} (f : A -> M B) (g : A -> B) (l : list A) (w : world) :
  (forall a w', f a w' = (Ret (g a), w')) ->
  mapM f l w = (Ret (map g l), w).
Proof.
  intros Hf. induction l as [|a l IH]; [reflexivity|].
  cbn [mapM map]. unfold bind, ret. by rewrite Hf, IH.
Qed.

(** The tokenizer computes the specification's lookup on every segment. *)
Lemma split_tokens_lookup (w : world) (input_marking delimiter : str) :
  forallb Spec.has_names (tokens (self w)) = true ->
  delimiter <> [] ->
  _split_tokens upper input_marking delimiter w =
  (Ret (map (Spec.lookup upper (tokens (self w)))
            (split_scan delimiter 0 input_marking)), w).
Proof.
  intros Hnames Hdelim.
  destruct (foldM_register long_name (tokens (self w)) ∅ w
              (has_names_long _ Hnames)) as (dl & Hl & Hdl).
  destruct (foldM_register short_name (tokens (self w)) ∅ w
              (has_names_short _ Hnames)) as (ds & Hs & Hds).
  unfold _split_tokens, get_tokens.
  unfold bind at 1. unfold bind at 1. rewrite Hl.
  unfold bind at 1. unfold bind at 1. rewrite Hs.
  unfold bind at 1. unfold lift, str_split.
  destruct delimiter as [|c delimiter]; [congruence|].
  apply mapM_pure. intros seg w'. unfold Spec.lookup.
  rewrite Hdl, Hds, !lookup_empty.
  destruct (Spec.registered upper long_name (tokens (self w)) (upper seg));
    [reflexivity|].
  by destruct (Spec.registered upper short_name (tokens (self w)) (upper seg)).
Qed.

(** The validator looks at the first token only. *)
Lemma validate_marking_run (w : world) (c : N) (m seg : str)
    (rest : list str) :
  forallb Spec.has_names (tokens (self w)) = true ->
  split_scan (py "//") 0 (c :: m) = seg :: rest ->
  validate_marking upper (Some (c :: m)) w =
  (Ret (is_ClassificationToken (Spec.lookup upper (tokens (self w)) seg)), w).
Proof.
  intros Hnames Hscan.
  unfold validate_marking. unfold bind at 1.
  rewrite split_tokens_lookup by done. rewrite Hscan.
  cbn [map]. unfold bind, lift, first, ret.
  by destruct (is_ClassificationToken _).
Qed.

End Facts.
End TokenizerFacts.

(** * Read-only computations *)

Module ReadonlyFacts.
Import Py all_tokens PluginMain Contract.

Section Facts.

Context {float host : Type}.

#[local] Abbreviation world := (@PluginMain.world float host).
#[local] Abbreviation M := (@PluginMain.M float host).
#[local] Abbreviation readonly := (@Contract.readonly float host).

Lemma readonly_ret {A} (a : A) : readonly (ret a).
Proof. split; intros; reflexivity. Qed.

Lemma readonly_lift {A} (o : outcome A) : readonly (lift o).
Proof. split; intros; reflexivity. Qed.

Lemma readonly_get_tokens : readonly get_tokens.
Proof. split; [reflexivity|]. intros w1 w2 H. simpl. by rewrite H. Qed.

Lemma readonly_logger_error (msg : str) : readonly (logger_error msg).
Proof. split; intros; reflexivity. Qed.

Lemma readonly_bind {A B} (m : M A) (k : A -> M B) :
  readonly m -> (forall a, readonly (k a)) -> readonly (bind m k).
Proof.
  intros [Hm1 Hm2] Hk. split.
  - intros w. unfold bind. specialize (Hm1 w).
    destruct (m w) as [[a|e] w']; simpl in *; [|done].
    destruct (Hk a) as [Hk1 _]. by rewrite Hk1.
  - intros w1 w2 Hw. unfold bind.
    pose proof (Hm1 w1) as H1. pose proof (Hm1 w2) as H2.
    specialize (Hm2 w1 w2 Hw).
    destruct (m w1) as [o1 w1'], (m w2) as [o2 w2']; simpl in *. subst o2.
    destruct o1 as [a|e]; [|reflexivity].
    destruct (Hk a) as [_ Hk2]. apply Hk2. congruence.
Qed.

Lemma readonly_try_except {A} (body : M A) (handler : exn -> option (M A)) :
  readonly body ->
  (forall e h, handler e = Some h -> readonly h) ->
  readonly (try_except body handler).
Proof.
  intros [Hb1 Hb2] Hh. split.
  - intros w. unfold try_except. specialize (Hb1 w).
    destruct (body w) as [[a|e] w']; simpl in *; [done|].
    destruct (handler e) as [h|] eqn:He; [|done].
    destruct (Hh _ _ He) as [Hh1 _]. by rewrite Hh1.
  - intros w1 w2 Hw. unfold try_except.
    pose proof (Hb1 w1) as H1. pose proof (Hb1 w2) as H2.
    specialize (Hb2 w1 w2 Hw).
    destruct (body w1) as [o1 w1'], (body w2) as [o2 w2']; simpl in *. subst o2.
    destruct o1 as [a|e]; [reflexivity|].
    destruct (handler e) as [h|] eqn:He; [|reflexivity].
    destruct (Hh _ _ He) as [_ Hh2]. apply Hh2. congruence.
Qed.

Lemma readonly_mapM {A B} (f : A -> M B) (l : list A) :
  (forall a, readonly (f a)) -> readonly (mapM f l).
Proof.
  intros Hf. induction l as [|a l IH]; [apply readonly_ret|].
  cbn [mapM]. apply readonly_bind; [apply Hf|]. intros b.
  apply readonly_bind; [apply IH|]. intros bs. apply readonly_ret.
Qed.

Lemma readonly_foldM {A B} (f : B -> A -> M B) (l : list A) (b : B) :
  (forall b a, readonly (f b a)) -> readonly (foldM f b l).
Proof.
  intros Hf. revert b. induction l as [|a l IH]; intros b;
    [apply readonly_ret|].
  cbn [foldM]. apply readonly_bind; [apply Hf|]. intros b'. apply IH.
Qed.

Lemma readonly_filterM {A} (keep : A -> M bool) (l : list A) :
  (forall a, readonly (keep a)) -> readonly (filterM keep l).
Proof.
  intros Hk. induction l as [|a l IH]; [apply readonly_ret|].
  cbn [filterM]. apply readonly_bind; [apply Hk|]. intros b.
  apply readonly_bind; [apply IH|]. intros r. apply readonly_ret.
Qed.

Variable float_add : float -> float -> float.
Variable int_to_float : Z -> option float.
Variable upper : str -> str.
Variable json_loads : str -> outcome (value float).

#[local] Ltac readonly_step :=
  first
    [ apply readonly_ret
    | apply readonly_lift
    | apply readonly_get_tokens
    | apply readonly_logger_error
    | apply readonly_bind; [|intros ?]
    | apply readonly_mapM; intros ?
    | apply readonly_foldM; intros ? ?
    | apply readonly_filterM; intros ? ].

Lemma readonly_has_access (p m : option str) : readonly (has_access p m).
Proof. apply readonly_ret. Qed.

Lemma readonly_split_tokens (m d : str) :
  readonly (_split_tokens upper m d).
Proof.
  unfold _split_tokens, register. repeat readonly_step.
  destruct (_ !! _); [readonly_step|]. destruct (_ !! _); readonly_step.
Qed.

Lemma readonly_validate_marking (m : option str) :
  readonly (validate_marking upper m).
Proof.
  unfold validate_marking. destruct m as [[|c m]|]; try apply readonly_ret.
  apply readonly_bind; [apply readonly_split_tokens|]. intros ts.
  repeat readonly_step. destruct (negb _); apply readonly_ret.
Qed.

Lemma readonly_future_has_access (p m : option str) :
  readonly (future_has_access float_add int_to_float json_loads p m).
Proof.
  unfold future_has_access. destruct m as [[|c m]|]; try apply readonly_ret.
  apply readonly_bind; [apply readonly_lift|]. intros markings.
  apply readonly_bind.
  - apply readonly_try_except; [repeat readonly_step|].
    intros e h He. destruct e; try discriminate.
    injection He as <-. repeat readonly_step.
  - intros [user_accesses|answer]; [|apply readonly_ret].
    apply readonly_bind; [apply readonly_lift|]. intros clearances.
    apply readonly_bind; [apply readonly_lift|]. intros required_clearance.
    apply readonly_bind; [apply readonly_lift|]. intros held.
    destruct (negb held); [apply readonly_ret|].
    apply readonly_bind; [apply readonly_lift|]. intros formal_accesses.
    apply readonly_bind; [apply readonly_lift|]. intros visas.
    apply readonly_bind; [apply readonly_lift|]. intros user_controls.
    apply readonly_bind; [repeat readonly_step|].
    intros [|i missing]; apply readonly_ret.
Qed.

End Facts.
End ReadonlyFacts.

(** * The access decision *)

Module DecisionFacts.
Import Py all_tokens PluginMain Contract.

Section Facts.

Context {float host : Type}.
Variable float_add : float -> float -> float.
Variable int_to_float : Z -> option float.
Variable json_loads : str -> outcome (value float).

#[local] Abbreviation value := (Py.value float).
#[local] Abbreviation world := (@PluginMain.world float host).
#[local] Abbreviation future_has_access :=
  (@PluginMain.future_has_access float host float_add int_to_float json_loads).

Lemma existsb_eq_str (x : str) (l : list value) :
  existsb (fun v => eq_str v x) l = true <-> In (VStr x) l.
Proof.
  rewrite existsb_exists. split.
  - intros (v & Hin & Hv). destruct v; try discriminate.
    apply bool_decide_eq_true in Hv. by subst.
  - intros Hin. exists (VStr x). split; [done|].
    by apply bool_decide_eq_true.
Qed.

(** The comprehension that collects the missing controls. *)
Lemma missing_controls_world (user_controls : value) (l : list str)
    (w : world) :
  snd (filterM (fun i => b <- lift (contains user_controls i) ;;
                         ret (negb b)) l w) = w.
Proof.
  induction l as [|i l IH]; [reflexivity|].
  cbn [filterM]. unfold bind at 1. unfold bind at 1. unfold lift at 1.
  destruct (contains user_controls i) as [b|e]; [|reflexivity].
  unfold ret at 1. unfold bind at 1.
  destruct (filterM _ l w) as [[r|e] w'] eqn:Hrun; simpl in IH; by subst.
Qed.

Lemma missing_controls_list (held : list value) (l : list str) (w : world) :
  filterM (fun i => b <- lift (contains (VList held) i) ;; ret (negb b)) l w
  = (Ret (List.filter (fun i => negb (existsb (fun v => eq_str v i) held)) l),
     w).
Proof.
  induction l as [|i l IH]; [reflexivity|].
  cbn [filterM List.filter]. unfold bind at 1. unfold bind at 1.
  unfold lift at 1, ret at 1. cbn [contains] in IH |- *. unfold bind at 1.
  rewrite IH. unfold ret. by destruct (negb _).
Qed.

(** The method on a non-empty marking and a profile that parses. *)
Lemma future_has_access_parsed (p : str) (c : N) (m : str) (v : value)
    (w : world) :
  json_loads p = Ret v ->
  future_has_access (Some p) (Some (c :: m)) w =
  match getitem v (py "clearances") with
  | Raise e => (Raise e, w)
  | Ret clearances =>
  match first (split_scan (py "//") 0 (c :: m)) with
  | Raise e => (Raise e, w)
  | Ret required_clearance =>
  match contains clearances required_clearance with
  | Raise e => (Raise e, w)
  | Ret held =>
  if negb held then (Ret false, w) else
  match getitem v (py "formal_accesses") with
  | Raise e => (Raise e, w)
  | Ret formal_accesses =>
  match getitem v (py "visas") with
  | Raise e => (Raise e, w)
  | Ret visas =>
  match iadd float_add int_to_float formal_accesses visas with
  | Raise e => (Raise e, w)
  | Ret user_controls =>
  match filterM (fun i => b <- lift (contains user_controls i) ;;
                          ret (negb b))
                (tail (split_scan (py "//") 0 (c :: m))) w with
  | (Raise e, w') => (Raise e, w')
  | (Ret [], w') => (Ret true, w')
  | (Ret (_ :: _), w') => (Ret false, w')
  end end end end end end end.
Proof.
  intros Hparse. unfold PluginMain.future_has_access.
  unfold bind at 1. unfold lift at 1.
  change (str_split (c :: m) (py "//"))
    with (Ret (split_scan (py "//") 0 (c :: m))).
  cbv beta iota.
  unfold bind at 1. unfold try_except, bind at 1. unfold lift at 1, loads.
  rewrite Hparse. cbv beta iota. unfold ret at 1. cbv beta iota.
  unfold bind at 1, lift at 1.
  destruct (getitem v (py "clearances")) as [clearances|e]; [|reflexivity].
  unfold bind at 1, lift at 1.
  destruct (first _) as [required_clearance|e]; [|reflexivity].
  unfold bind at 1, lift at 1.
  destruct (contains _ _) as [held|e]; [|reflexivity].
  destruct (negb held); [reflexivity|].
  unfold bind at 1, lift at 1.
  destruct (getitem v (py "formal_accesses")) as [fa|e]; [|reflexivity].
  unfold bind at 1, lift at 1.
  destruct (getitem v (py "visas")) as [vi|e]; [|reflexivity].
  unfold bind at 1, lift at 1.
  destruct (iadd _ _ _ _) as [uc|e]; [|reflexivity].
  unfold bind at 1.
  destruct (filterM _ _ w) as [[[|i missing]|e] w']; reflexivity.
Qed.

Lemma array_field_getitem (v : value) (k : str) (l : list value) :
  array_field v k = Some l -> getitem v k = Ret (VList l).
Proof.
  unfold array_field, getitem. destruct v; try discriminate.
  destruct (dict_lookup k d) as [[]|]; try discriminate. congruence.
Qed.

Lemma getitem_Ret (v x : value) (k : str) :
  getitem v k = Ret x -> exists d, v = VDict d /\ dict_lookup k d = Some x.
Proof.
  unfold getitem. destruct v; try discriminate.
  destruct (dict_lookup k d) eqn:Hk; [|discriminate].
  intros [= <-]. by exists d.
Qed.

Lemma getitem_has_field (v x : value) (k : str) :
  getitem v k = Ret x -> has_field v k = true.
Proof.
  intros H. destruct (getitem_Ret _ _ _ H) as (d & -> & Hk).
  unfold has_field. rewrite Hk. by apply bool_decide_eq_true.
Qed.

Lemma getitem_no_field (v : value) (k : str) :
  has_field v k = false ->
  getitem v k = Raise (match v with VDict _ => KeyError k | _ => TypeError end).
Proof.
  unfold has_field, getitem. destruct v; try reflexivity.
  destruct (dict_lookup k d); [|reflexivity].
  intros H. apply bool_decide_eq_false in H. destruct H. by eexists.
Qed.

Lemma future_has_access_falsy (p marking : option str) (w : world) :
  falsy marking = true -> future_has_access p marking w = (Ret false, w).
Proof. by destruct marking as [[|c m]|]. Qed.

Lemma future_has_access_unparsable (profile : str) (marking : option str)
    (w : world) :
  json_loads profile = Raise ValueError ->
  future_has_access (Some profile) marking w =
  (Ret false,
   if falsy marking then w
   else {| self := self w;
           log := log w ++ [(ERROR, py "Error parsing JSON data: "
                                      ++ profile)] |}).
Proof.
  intros Hparse. destruct marking as [[|c m]|]; [reflexivity| |reflexivity].
  unfold PluginMain.future_has_access.
  unfold bind at 1. unfold lift at 1.
  change (str_split (c :: m) (py "//"))
    with (Ret (split_scan (py "//") 0 (c :: m))).
  cbv beta iota.
  unfold bind at 1. unfold try_except, bind at 1. unfold lift at 1, loads.
  rewrite Hparse. reflexivity.
Qed.

Lemma ValueError_or_not (e : exn) : e = ValueError \/ e <> ValueError.
Proof. destruct e; (by left) || (by right). Qed.

(** A failure of [json.loads] that the [except] clause does not cover. *)
Lemma future_has_access_uncaught (profile : str) (c : N) (m : str) (e : exn)
    (w : world) :
  json_loads profile = Raise e ->
  e <> ValueError ->
  future_has_access (Some profile) (Some (c :: m)) w = (Raise e, w).
Proof.
  intros Hparse He.
  unfold PluginMain.future_has_access.
  unfold bind at 1. unfold lift at 1.
  change (str_split (c :: m) (py "//"))
    with (Ret (split_scan (py "//") 0 (c :: m))).
  cbv beta iota.
  unfold bind at 1. unfold try_except, bind at 1. unfold lift at 1, loads.
  rewrite Hparse. by destruct e.
Qed.

Lemma no_missing_controls (held : list value) (l : list str) :
  match List.filter (fun i => negb (existsb (fun v => eq_str v i) held)) l with
  | [] => true
  | _ :: _ => false
  end = forallb (fun i => existsb (fun v => eq_str v i) held) l.
Proof.
  induction l as [|i l IH]; [reflexivity|].
  cbn [List.filter forallb].
  destruct (existsb (fun v => eq_str v i) held); [exact IH|reflexivity].
Qed.

(** The answer for a profile whose three fields are arrays. *)
Lemma future_has_access_arrays (p : str) (c : N) (m : str) (v : value)
    (clearances formal_accesses visas : list value) (seg : str)
    (rest : list str) (w : world) :
  json_loads p = Ret v ->
  array_field v (py "clearances") = Some clearances ->
  array_field v (py "formal_accesses") = Some formal_accesses ->
  array_field v (py "visas") = Some visas ->
  split_scan (py "//") 0 (c :: m) = seg :: rest ->
  future_has_access (Some p) (Some (c :: m)) w =
  (Ret (existsb (fun x => eq_str x seg) clearances &&
        forallb (fun i => existsb (fun x => eq_str x i)
                            (formal_accesses ++ visas)) rest), w).
Proof.
  intros Hparse Hc Hf Hv Hsplit.
  rewrite (future_has_access_parsed _ _ _ _ w Hparse), Hsplit.
  rewrite (array_field_getitem _ _ _ Hc), (array_field_getitem _ _ _ Hf),
    (array_field_getitem _ _ _ Hv).
  cbn [first tail iadd iterate obind].
  change (contains (VList clearances) seg)
    with (Ret (A:=bool) (existsb (fun x => eq_str x seg) clearances)).
  cbv beta iota.
  destruct (existsb (fun x => eq_str x seg) clearances); cbn [negb andb];
    [|reflexivity].
  rewrite missing_controls_list, <- no_missing_controls.
  by destruct (List.filter _ rest).
Qed.

End Facts.
End DecisionFacts.

(** * Properties of the plugin *)

Module Properties.
Import Py all_tokens PluginMain Contract Engine.
Import PyFacts TokenizerFacts ReadonlyFacts DecisionFacts.

Section Claims.

Context {float host : Type}.
Variable float_add : float -> float -> float.
Variable int_to_float : Z -> option float.
Variable upper : str -> str.
Variable json_loads : str -> outcome (value float).

#[local] Abbreviation value := (Py.value float).
#[local] Abbreviation dict := (Py.dict float).
#[local] Abbreviation Token := (all_tokens.Token float).
#[local] Abbreviation world := (@PluginMain.world float host).
#[local] Abbreviation future_has_access :=
  (@PluginMain.future_has_access float host float_add int_to_float json_loads).
#[local] Abbreviation validate_marking :=
  (@PluginMain.validate_marking float host upper).
#[local] Abbreviation _split_tokens :=
  (@PluginMain._split_tokens float host upper).
#[local] Abbreviation lookup := (@Spec.lookup float upper).
#[local] Abbreviation registered := (@Spec.registered float upper).
#[local] Abbreviation unmatched := (@Spec.unmatched float upper).

(** ** Construction *)

#[local] Ltac settle_conversion :=
  repeat split; intros;
  repeat match goal with
         | H : _ \/ _ |- _ => destruct H
         | H : VDict _ = VDict _ |- _ => injection H as <-
         end;
  repeat split;
  try discriminate; try congruence; try reflexivity;
  try match goal with
      | H : VStr _ = VStr _ |- _ => by vm_compute in H
      end.

Lemma convert_dict_to_token_one (input : dict) (w : world) :
  data_well_formed input = true ->
  exists t,
    _convert_dict_to_token input w = (Ret t, w) /\ converts_to input t.
Proof.
  unfold data_well_formed, _convert_dict_to_token, converts_to.
  intros Hdata.
  destruct (dict_get input (py "data")) as [| | | | |?|d] eqn:Ed;
    try discriminate.
  { eexists. split; [by rewrite orb_true_r|]. settle_conversion. }
  destruct (dict_get input (py "type")) as [| | | |s| |] eqn:Et;
    cbn [is_none orb eq_str];
    try (eexists; split; [reflexivity|]; settle_conversion).
  unfold str_eqb.
  destruct (decide (s = py "Classification")) as [->|Hc].
  { eexists. split; [reflexivity|]. settle_conversion. }
  rewrite (bool_decide_eq_false_2 _ Hc).
  destruct (decide (s = py "DisseminationControl")) as [->|Hd].
  { eexists. split; [reflexivity|]. settle_conversion. }
  rewrite (bool_decide_eq_false_2 _ Hd).
  eexists. split; [reflexivity|]. settle_conversion.
Qed.

(** C7 (amended).  Building the token list from configuration definitions
    whose [data] is absent or a mapping never raises and leaves the world
    untouched: a definition whose [type] or [data] is missing becomes an
    [InvalidFormatToken], one of type [Classification] with its data a
    Classification token carrying the data's level, one of type
    [DisseminationControl] with its data a control token, and one of any
    other type an [InvalidFormatToken]. *)
Theorem convert_dict_to_token_total (definitions : list dict) (w : world) :
  forallb data_well_formed definitions = true ->
  exists ts,
    mapM _convert_dict_to_token definitions w = (Ret ts, w) /\
    Forall2 converts_to definitions ts.
Proof.
  induction definitions as [|input definitions IH]; intros Hwf.
  - exists []. split; [reflexivity|constructor].
  - cbn [forallb] in Hwf. apply andb_true_iff in Hwf as [Hin Hrest].
    destruct (convert_dict_to_token_one input w Hin) as (t & Hrun & Ht).
    destruct (IH Hrest) as (ts & Hruns & Hts).
    exists (t :: ts). split; [|by constructor].
    cbn [mapM]. unfold bind, ret.
    by rewrite (Hrun : @_convert_dict_to_token float host input w = _), Hruns.
Qed.

(** ** The tokenizer *)

Lemma lookup_long (ts : list Token) (text : str) (t : Token) :
  registered long_name ts (upper text) = Some t -> lookup ts text = t.
Proof. unfold Spec.lookup. by intros ->. Qed.

Lemma lookup_short (ts : list Token) (text : str) (t : Token) :
  registered long_name ts (upper text) = None ->
  registered short_name ts (upper text) = Some t ->
  lookup ts text = t.
Proof. unfold Spec.lookup. by intros -> ->. Qed.

Lemma lookup_unmatched (ts : list Token) (text : str) :
  unmatched ts text ->
  lookup ts text = UnknownToken [(py "long_name", VStr text)].
Proof. unfold Spec.lookup. by intros [-> ->]. Qed.

(** Two spellings with the same uppercase form resolve alike: to the same
    registered token, or both to an [UnknownToken]. *)
Lemma lookup_case_insensitive (ts : list Token) (a b : str) :
  upper a = upper b ->
  (lookup ts a = lookup ts b /\ ~ unmatched ts a) \/
  (unmatched ts a /\ unmatched ts b).
Proof.
  intros Hab. unfold Spec.unmatched, Spec.lookup. rewrite <- Hab.
  destruct (registered long_name ts (upper a)) eqn:Hl.
  { left. split; [reflexivity|]. by intros [? _]. }
  destruct (registered short_name ts (upper a)) eqn:Hs.
  { left. split; [reflexivity|]. by intros [_ ?]. }
  by right.
Qed.

(** C6.  On an engine whose tokens all have their two names, tokenizing a
    marking never raises and does not touch the world.  The marking is cut
    at every ["//"] and nowhere else: joining the segments with ["//"]
    gives the marking back and no segment holds ["//"].  The output has one
    token per segment, in the order of the segments; the token of a segment
    is the token registered under its uppercased text as a long name, else
    the one registered under it as a short name, else an [UnknownToken]
    whose long name is the segment as written.  The spelling of a segment
    matters through its uppercase form only: two segments with the same
    uppercase form that the registry knows get the same token. *)
Theorem split_tokens_tokenizes (w : world) (marking : str) :
  forallb Spec.has_names (tokens (self w)) = true ->
  exists segments output,
    str_split marking (py "//") = Ret segments /\
    str_join (py "//") segments = marking /\
    Forall (fun seg => str_contains seg (py "//") = false) segments /\
    _split_tokens marking (py "//") w = (Ret output, w) /\
    length output = length segments /\
    (forall i j a b,
       segments !! i = Some a -> segments !! j = Some b ->
       upper a = upper b -> ~ unmatched (tokens (self w)) a ->
       output !! i = output !! j) /\
    forall i seg,
      segments !! i = Some seg ->
      output !! i = Some (lookup (tokens (self w)) seg) /\
      (forall t,
         registered long_name (tokens (self w)) (upper seg) = Some t ->
         output !! i = Some t) /\
      (forall t,
         registered long_name (tokens (self w)) (upper seg) = None ->
         registered short_name (tokens (self w)) (upper seg) = Some t ->
         output !! i = Some t) /\
      (unmatched (tokens (self w)) seg ->
       output !! i = Some (UnknownToken [(py "long_name", VStr seg)])).
Proof.
  intros Hnames.
  exists (split_scan (py "//") 0 marking).
  exists (map (lookup (tokens (self w))) (split_scan (py "//") 0 marking)).
  split; [reflexivity|].
  split; [by apply str_join_split_scan|].
  split; [by apply split_scan_free|].
  split; [by apply split_tokens_lookup|].
  split; [by rewrite length_map|].
  assert (Hout : forall i seg,
             split_scan (py "//") 0 marking !! i = Some seg ->
             map (lookup (tokens (self w)))
               (split_scan (py "//") 0 marking) !! i
             = Some (lookup (tokens (self w)) seg)).
  { intros i seg Hseg. change (map ?f ?l) with (f <$> l).
    by rewrite list_lookup_fmap, Hseg. }
  split.
  { intros i j a b Ha Hb Hab Hknown.
    rewrite (Hout _ _ Ha), (Hout _ _ Hb). f_equal.
    by destruct (lookup_case_insensitive (tokens (self w)) a b Hab)
      as [[? _]|[? _]]. }
  intros i seg Hseg. specialize (Hout i seg Hseg).
  split; [exact Hout|]. rewrite Hout.
  split; [|split].
  - intros t Hl. by rewrite (lookup_long _ _ _ Hl).
  - intros t Hl Hs. by rewrite (lookup_short _ _ _ Hl Hs).
  - intros Hu. by rewrite (lookup_unmatched _ _ Hu).
Qed.

(** ** The validator *)


(** ** The permissive decision *)

(** C5.  [has_access] answers [True] whatever it is given, and does
    nothing else. *)
Theorem has_access_always_true (user_accesses_json marking : option str)
    (w : world) :
  has_access user_accesses_json marking w = (Ret true, w).
Proof. reflexivity. Qed.

(** ** The strict decision *)

(** C4.  Without a marking ([None] or the empty string)
    [future_has_access] answers [False] at once: whatever the profile and
    whatever [json.loads] would make of it, nothing is parsed, logged or
    raised. *)
Theorem future_has_access_without_marking (user_accesses_json : option str)
    (w : world) :
  future_has_access user_accesses_json None w = (Ret false, w) /\
  future_has_access user_accesses_json (Some []) w = (Ret false, w).
Proof. split; reflexivity. Qed.

(** C3 (amended).  When [json.loads] rejects the profile string with a
    [ValueError], [future_has_access] answers [False] for every marking
    and raises nothing.  With a non-empty marking it hands the logger one
    error record that quotes the profile; with no marking it returns
    before parsing and logs nothing.  A failure of [json.loads] that is not
    a [ValueError] (the [RecursionError] of text that is nested too deep)
    is not caught: with a non-empty marking it reaches the caller and
    nothing is logged, and with no marking the answer is [False] since
    nothing is parsed. *)
Theorem future_has_access_fails_closed (profile : str) (marking : option str)
    (w : world) :
  (json_loads profile = Raise ValueError ->
   future_has_access (Some profile) marking w =
   (Ret false,
    if falsy marking then w
    else {| self := self w;
            log := log w ++ [(ERROR, py "Error parsing JSON data: "
                                       ++ profile)] |})) /\
  (forall e,
     json_loads profile = Raise e ->
     e <> ValueError ->
     future_has_access (Some profile) marking w =
     (if falsy marking then Ret false else Raise e, w)).
Proof.
  split; [apply future_has_access_unparsable|].
  intros e Hparse He. destruct marking as [[|c m]|]; try reflexivity.
  by apply future_has_access_uncaught.
Qed.

(** C1.  For a non-empty marking and a profile that parses to an object
    whose [clearances], [formal_accesses] and [visas] are arrays,
    [future_has_access] answers without raising or logging, and the answer
    is [True] exactly when the first ["//"]-segment of the marking is, as
    written, an element of [clearances] and every further segment is an
    element of [formal_accesses] or of [visas].  Nothing else enters the
    decision; with no further segment the clearance alone decides. *)
Theorem future_has_access_decision (profile marking : str)
    (user_accesses : value) (clearances formal_accesses visas : list value)
    (w : world) :
  marking <> [] ->
  json_loads profile = Ret user_accesses ->
  array_field user_accesses (py "clearances") = Some clearances ->
  array_field user_accesses (py "formal_accesses") = Some formal_accesses ->
  array_field user_accesses (py "visas") = Some visas ->
  exists required_clearance required_controls answer,
    str_split marking (py "//") = Ret (required_clearance :: required_controls)
    /\ future_has_access (Some profile) (Some marking) w = (Ret answer, w)
    /\ (answer = true <->
        In (VStr required_clearance) clearances /\
        forall control,
          In control required_controls ->
          In (VStr control) formal_accesses \/ In (VStr control) visas).
Proof.
  intros Hne Hparse Hc Hf Hv.
  destruct marking as [|c m]; [congruence|].
  destruct (split_scan_cons (py "//") (c :: m)) as (seg & rest & Hsplit).
  exists seg, rest. eexists.
  split; [by rewrite str_split_slashes, Hsplit|].
  split; [by apply (future_has_access_arrays _ _ _ _ _ _ _ _ _ _ _ _ w
                      Hparse Hc Hf Hv Hsplit)|].
  rewrite andb_true_iff, existsb_eq_str, forallb_forall.
  split; intros [Hheld Hall]; (split; [exact Hheld|]); intros control Hin.
  - by apply in_app_or, existsb_eq_str, Hall.
  - by apply existsb_eq_str, in_or_app, Hall.
Qed.

(** C10.  The [except] clause covers the [ValueError] of [json.loads] and
    nothing else.  With a non-empty marking and a profile that parses, a
    parsed value without the key [clearances] makes the method raise (a
    [KeyError] when it is an object, a [TypeError] otherwise), with nothing
    logged.  Whenever the method returns, the profile is an object with the
    key [clearances], and with the keys [formal_accesses] and [visas] too
    as soon as the required clearance is held. *)
Theorem future_has_access_needs_fields (profile marking : str)
    (user_accesses : value) (w : world) :
  marking <> [] ->
  json_loads profile = Ret user_accesses ->
  (has_field user_accesses (py "clearances") = false ->
   future_has_access (Some profile) (Some marking) w =
   (Raise (match user_accesses with
           | VDict _ => KeyError (py "clearances")
           | _ => TypeError
           end), w)) /\
  (forall answer w',
     future_has_access (Some profile) (Some marking) w = (Ret answer, w') ->
     exists required_clearance required_controls clearances,
       str_split marking (py "//")
       = Ret (required_clearance :: required_controls) /\
       getitem user_accesses (py "clearances") = Ret clearances /\
       has_field user_accesses (py "clearances") = true /\
       (contains clearances required_clearance = Ret true ->
        has_field user_accesses (py "formal_accesses") = true /\
        has_field user_accesses (py "visas") = true)).
Proof.
  intros Hne Hparse. destruct marking as [|c m]; [congruence|].
  rewrite (future_has_access_parsed _ _ _ _ _ _ _ w Hparse).
  split.
  - intros Hno. by rewrite (getitem_no_field _ _ Hno).
  - intros answer w'.
    destruct (split_scan_cons (py "//") (c :: m)) as (seg & rest & Hsplit).
    rewrite str_split_slashes, Hsplit. cbn [first tail].
    destruct (getitem user_accesses (py "clearances")) as [clearances|e]
      eqn:Hc; [|discriminate].
    intros Hrun. exists seg, rest, clearances.
    do 2 (split; [reflexivity|]).
    split; [by apply (getitem_has_field _ clearances)|].
    intros Hheld. rewrite Hheld in Hrun. cbn [negb] in Hrun.
    destruct (getitem user_accesses (py "formal_accesses")) as [fa|e]
      eqn:Hf; [|discriminate].
    destruct (getitem user_accesses (py "visas")) as [vi|e]
      eqn:Hv; [|discriminate].
    split; [by apply (getitem_has_field _ fa)|by apply (getitem_has_field _ vi)].
Qed.

(** ** All entry points *)

(** C8 (amended).  On an engine whose tokens all have their two names,
    [has_access] and [validate_marking] answer with a boolean on every
    input, and so does [future_has_access], without changing the instance,
    whenever the marking is [None] or empty, or [json.loads] rejects the
    profile string with a [ValueError], or the profile parses to an object
    whose [clearances], [formal_accesses] and [visas] are arrays.  With a
    marking that is not empty [future_has_access] raises to the caller
    when [json.loads] raises anything but a [ValueError], and when the
    parsed profile has no key [clearances]: a [KeyError] for an object, a
    [TypeError] for any other value. *)
Theorem entry_points_answer (user_accesses_json marking : option str)
    (w : world) :
  forallb Spec.has_names (tokens (self w)) = true ->
  has_access user_accesses_json marking w = (Ret true, w) /\
  (exists answer, validate_marking marking w = (Ret answer, w)) /\
  ((falsy marking = true \/
    exists profile,
      user_accesses_json = Some profile /\
      match json_loads profile with
      | Ret v => profile_arrays v = true
      | Raise e => e = ValueError
      end) ->
   exists answer w',
     future_has_access user_accesses_json marking w = (Ret answer, w') /\
     self w' = self w) /\
  (forall profile,
     falsy marking = false ->
     user_accesses_json = Some profile ->
     match json_loads profile with
     | Ret v =>
         has_field v (py "clearances") = false ->
         future_has_access user_accesses_json marking w =
         (Raise (match v with
                 | VDict _ => KeyError (py "clearances")
                 | _ => TypeError
                 end), w)
     | Raise e =>
         e <> ValueError ->
         future_has_access user_accesses_json marking w = (Raise e, w)
     end).
Proof.
  intros Hnames. split; [reflexivity|]. split; [|split].
  - destruct marking as [[|c m]|]; try by eexists.
    destruct (split_scan_cons (py "//") (c :: m)) as (seg & rest & Hsplit).
    eexists. apply (validate_marking_run _ _ _ _ _ rest Hnames Hsplit).
  - intros Hprofile. destruct (falsy marking) eqn:Hfalsy.
    { exists false, w. by rewrite future_has_access_falsy. }
    destruct Hprofile as [|(profile & -> & Hprofile)]; [discriminate|].
    destruct (json_loads profile) as [v|e] eqn:Hparse.
    + destruct marking as [[|c m]|]; try discriminate.
      destruct (split_scan_cons (py "//") (c :: m)) as (seg & rest & Hsplit).
      unfold profile_arrays in Hprofile.
      apply andb_true_iff in Hprofile as [Hprofile Hv].
      apply andb_true_iff in Hprofile as [Hc Hf].
      apply bool_decide_eq_true in Hc as [cl Hc].
      apply bool_decide_eq_true in Hf as [fa Hf].
      apply bool_decide_eq_true in Hv as [vi Hv].
      eexists _, w. split; [|reflexivity].
      apply (future_has_access_arrays _ _ _ _ _ _ _ _ _ _ _ _ w
               Hparse Hc Hf Hv Hsplit).
    + subst e. eexists _, _.
      split; [by apply future_has_access_unparsable|].
      by rewrite Hfalsy.
  - intros profile Hfalsy ->.
    destruct marking as [[|c m]|]; try discriminate.
    destruct (json_loads profile) as [v|e] eqn:Hparse.
    + intros Hno.
      rewrite (future_has_access_parsed _ _ _ _ _ _ _ w Hparse).
      by rewrite (getitem_no_field _ _ Hno).
    + intros He. by apply future_has_access_uncaught.
Qed.

(** ** The engine *)

#[local] Abbreviation run :=
  (@Engine.run float host float_add int_to_float upper json_loads).
#[local] Abbreviation exec :=
  (@Engine.exec float host float_add int_to_float upper json_loads).

Lemma readonly_answered {A} (m : PluginMain.M A)
    (wrap : outcome A -> @Engine.answer float) :
  Contract.readonly m ->
  (forall w : world,
     self (snd (let '(o, w') := m w in (wrap o, w'))) = self w) /\
  (forall w1 w2 : world,
     self w1 = self w2 ->
     fst (let '(o, w') := m w1 in (wrap o, w'))
     = fst (let '(o, w') := m w2 in (wrap o, w'))).
Proof.
  intros [H1 H2]. split.
  - intros w. specialize (H1 w). by destruct (m w).
  - intros w1 w2 Hw. specialize (H2 w1 w2 Hw).
    destruct (m w1), (m w2). simpl in *. congruence.
Qed.

Lemma run_readonly (c : call) :
  (forall w : world, self (snd (run c w)) = self w) /\
  (forall w1 w2 : world, self w1 = self w2 -> fst (run c w1) = fst (run c w2)).
Proof.
  destruct c as [p m|p m|m|m d]; unfold Engine.run; apply readonly_answered.
  - apply readonly_has_access.
  - apply readonly_future_has_access.
  - apply readonly_validate_marking.
  - apply readonly_split_tokens.
Qed.

Lemma exec_self (cs : list call) (w : world) : self (exec cs w) = self w.
Proof.
  revert w. induction cs as [|c cs IH]; intros w; [reflexivity|].
  unfold Engine.exec. cbn [fold_left].
  etrans; [apply IH|]. apply run_readonly.
Qed.

(** C9.  A call of [has_access], [future_has_access], [validate_marking]
    or the tokenizer leaves the instance, and with it the token list built
    by [__init__], as it found it; so does any sequence of such calls.  The
    answer of a call is the same after any such sequence as before it: it
    depends on the arguments and on the instance only. *)
Theorem calls_keep_the_engine (c : call) (cs : list call) (w : world) :
  self (snd (run c w)) = self w /\
  self (exec cs w) = self w /\
  tokens (self (exec (cs ++ [c]) w)) = tokens (self w) /\
  fst (run c (exec cs w)) = fst (run c w).
Proof.
  split; [apply run_readonly|]. split; [apply exec_self|].
  split; [by rewrite exec_self|].
  apply run_readonly, exec_self.
Qed.

End Claims.
End Properties.

(** * The engine of the source: its token table, ASCII text *)

Module SourceEngine.
Import Py all_tokens PluginMain Contract Engine.

(** [__init__] turns the token table into five tokens with both names. *)
Lemma init_builds_engine :
  __init__ None None blank = (Ret tt, engine) /\
  forallb Spec.has_names (tokens (self engine)) = true /\
  map kind (tokens (self engine))
  = [Classification; Classification; Classification; Classification;
     DisseminationControl].
Proof. repeat split. Qed.

Lemma init_from_any_world {float host : Type} (settings requests : option host)
    (w : @world float host) :
  exists ts,
    __init__ settings requests w
    = (Ret tt,
       {| self := {| PluginMain.settings := settings;
                     PluginMain.requests := requests; tokens := ts |};
          log := log w |}) /\
    forallb Spec.has_names ts = true.
Proof. eexists. split; reflexivity. Qed.

(** ** The examples of the specification *)

Example tokenize_SECRET_FOUO :
  tokenize (py "SECRET//FOUO") engine = (Ret [token_S; token_FOUO], engine).
Proof. vm_compute. reflexivity. Qed.

Example tokenize_unknown_segments :
  tokenize (py "SECRET//ABC//XYZ") engine
  = (Ret [token_S; unknown "ABC"; unknown "XYZ"], engine).
Proof. vm_compute. reflexivity. Qed.

Example tokenize_case_insensitive :
  tokenize (py "secret//SECRET//Secret//s") engine
  = (Ret [token_S; token_S; token_S; token_S], engine).
Proof. vm_compute. reflexivity. Qed.

Example tokenize_empty_segments :
  tokenize (py "S////fouo//") engine
  = (Ret [token_S; unknown ""; token_FOUO; unknown ""], engine).
Proof. vm_compute. reflexivity. Qed.

Example tokenize_no_trimming :
  tokenize (py "S// FOUO") engine = (Ret [token_S; unknown " FOUO"], engine).
Proof. vm_compute. reflexivity. Qed.

Example validate_empty :
  validate (Some []) engine = (Ret false, engine) /\
  validate None engine = (Ret false, engine).
Proof. split; reflexivity. Qed.

Example validate_SECRET_FOUO :
  validate (Some (py "SECRET//FOUO")) engine = (Ret true, engine).
Proof. vm_compute. reflexivity. Qed.

Example validate_FOUO_SECRET :
  validate (Some (py "FOUO//SECRET")) engine = (Ret false, engine).
Proof. vm_compute. reflexivity. Qed.

Example validate_ignores_later_segments :
  validate (Some (py "SECRET//SECRET//nonsense")) engine = (Ret true, engine).
Proof. vm_compute. reflexivity. Qed.

Example decide_S :
  decide_access (Some profile_S) (Some (py "S")) engine = (Ret true, engine).
Proof. vm_compute. reflexivity. Qed.

Example decide_no_hierarchy :
  decide_access (Some profile_S) (Some (py "TS")) engine = (Ret false, engine) /\
  decide_access (Some profile_S) (Some (py "U")) engine = (Ret false, engine).
Proof. split; vm_compute; reflexivity. Qed.

Example decide_case_sensitive :
  decide_access (Some profile_S) (Some (py "s")) engine = (Ret false, engine) /\
  decide_access (Some profile_S) (Some (py "Secret")) engine = (Ret false, engine).
Proof. split; vm_compute; reflexivity. Qed.

Example decide_controls_held :
  decide_access (Some profile_S_ABC_XYZ) (Some (py "S//ABC//XYZ")) engine
  = (Ret true, engine) /\
  decide_access (Some profile_S_ABC_XYZ) (Some (py "S//XYZ//ABC")) engine
  = (Ret true, engine).
Proof. split; vm_compute; reflexivity. Qed.

Example decide_control_missing :
  decide_access (Some profile_S_ABC) (Some (py "S//ABC//XYZ")) engine
  = (Ret false, engine).
Proof. vm_compute. reflexivity. Qed.

Example decide_object_without_fields :
  JsonRef.loads (json "{}") = Ret (VDict []) /\
  decide_access (Some (json "{}")) (Some (py "S")) engine
  = (Raise (KeyError (py "clearances")), engine) /\
  decide_access (Some (json "{'clearances': []}")) (Some (py "S")) engine
  = (Ret false, engine) /\
  decide_access (Some (json "{'clearances': ['S']}")) (Some (py "S")) engine
  = (Raise (KeyError (py "formal_accesses")), engine).
Proof. repeat split; vm_compute; reflexivity. Qed.

(** Fields that are not arrays are outside the profile format; the
    operators then act on what they find: [in] on a string looks for a
    substring, and a number is no container. *)
Example decide_fields_that_are_not_arrays :
  decide_access
    (Some (json "{'clearances': 'TS', 'formal_accesses': [], 'visas': []}"))
    (Some (py "S")) engine
  = (Ret true, engine) /\
  decide_access
    (Some (json "{'clearances': 5, 'formal_accesses': [], 'visas': []}"))
    (Some (py "S")) engine
  = (Raise TypeError, engine) /\
  decide_access
    (Some (json "{'clearances': ['S'], 'formal_accesses': 1, 'visas': 2}"))
    (Some (py "S")) engine
  = (Ret true, engine).
Proof. repeat split; vm_compute; reflexivity. Qed.

Example decide_without_profile :
  decide_access None (Some (py "S")) engine = (Raise TypeError, engine).
Proof. reflexivity. Qed.

(** ** The properties at work on the engine *)

Lemma convert_dict_to_token_total_witness :
  forallb data_well_formed (tokens_list (float:=Empty_set)) = true /\
  exists ts,
    mapM _convert_dict_to_token tokens_list engine = (Ret ts, engine) /\
    Forall2 converts_to tokens_list ts.
Proof.
  split; [reflexivity|].
  apply (Properties.convert_dict_to_token_total tokens_list engine).
  reflexivity.
Defined.

(** A definition of type [Classification] that has no [data] becomes an
    [InvalidFormatToken], not a Classification token. *)
Lemma classification_without_data :
  dict_get bare_classification (py "type") = VStr (py "Classification") /\
  dict_get bare_classification (py "data") = VNone /\
  _convert_dict_to_token bare_classification engine
  = (Ret (InvalidFormatToken []), engine) /\
  is_ClassificationToken (InvalidFormatToken (float:=Empty_set) []) = false.
Proof. repeat split. Qed.

Lemma split_tokens_tokenizes_witness :
  forallb Spec.has_names (tokens (self engine)) = true /\
  exists segments output,
    str_split (py "Secret//ABC////fouo") (py "//") = Ret segments /\
    str_join (py "//") segments = py "Secret//ABC////fouo" /\
    tokenize (py "Secret//ABC////fouo") engine = (Ret output, engine) /\
    output !! 0%nat = Some token_S /\
    output !! 1%nat = Some (unknown "ABC") /\
    output !! 2%nat = Some (unknown "") /\
    output !! 3%nat = Some token_FOUO.
Proof.
  split; [reflexivity|].
  destruct (Properties.split_tokens_tokenizes ascii_upper engine
              (py "Secret//ABC////fouo") eq_refl)
    as (segments & output & Hsplit & Hjoin & _ & Hrun & _ & _ & Hout).
  exists segments, output.
  assert (Hsegments : segments = [py "Secret"; py "ABC"; []; py "fouo"]).
  { change (str_split (py "Secret//ABC////fouo") (py "//"))
      with (Ret [py "Secret"; py "ABC"; []; py "fouo"]) in Hsplit.
    congruence. }
  split; [exact Hsplit|]. split; [exact Hjoin|]. split; [exact Hrun|].
  rewrite Hsegments in Hout.
  split; [exact (proj1 (Hout 0%nat (py "Secret") eq_refl))|].
  split; [exact (proj1 (Hout 1%nat (py "ABC") eq_refl))|].
  split; [exact (proj1 (Hout 2%nat [] eq_refl))|].
  exact (proj1 (Hout 3%nat (py "fouo") eq_refl)).
Defined.


Lemma future_has_access_decision_witness :
  py "S//ABC//XYZ" <> [] /\
  JsonRef.loads profile_S_ABC_XYZ = Ret accesses_S_ABC_XYZ /\
  array_field accesses_S_ABC_XYZ (py "clearances") = Some [VStr (py "S")] /\
  array_field accesses_S_ABC_XYZ (py "formal_accesses")
  = Some [VStr (py "ABC")] /\
  array_field accesses_S_ABC_XYZ (py "visas") = Some [VStr (py "XYZ")] /\
  exists answer,
    decide_access (Some profile_S_ABC_XYZ) (Some (py "S//ABC//XYZ")) engine
    = (Ret answer, engine) /\
    (answer = true <->
     In (VStr (py "S")) [VStr (float:=Empty_set) (py "S")] /\
     forall control,
       In control [py "ABC"; py "XYZ"] ->
       In (VStr control) [VStr (float:=Empty_set) (py "ABC")] \/
       In (VStr control) [VStr (float:=Empty_set) (py "XYZ")]).
Proof.
  split; [discriminate|]. do 4 (split; [reflexivity|]).
  destruct (Properties.future_has_access_decision
              JsonRef.float_add JsonRef.int_to_float JsonRef.loads
              profile_S_ABC_XYZ (py "S//ABC//XYZ") accesses_S_ABC_XYZ
              [VStr (py "S")] [VStr (py "ABC")] [VStr (py "XYZ")] engine
              ltac:(discriminate) eq_refl eq_refl eq_refl eq_refl)
    as (rc & rcs & answer & Hsplit & Hrun & Hiff).
  change (str_split (py "S//ABC//XYZ") (py "//"))
    with (Ret [py "S"; py "ABC"; py "XYZ"]) in Hsplit.
  assert (Hrc : rc = py "S") by congruence.
  assert (Hrcs : rcs = [py "ABC"; py "XYZ"]) by congruence.
  rewrite Hrc, Hrcs in Hiff.
  exists answer. split; [exact Hrun|exact Hiff].
Defined.

Lemma future_has_access_fails_closed_witness :
  JsonRef.loads (py "not json") = Raise ValueError /\
  decide_access (Some (py "not json")) (Some (py "S")) engine
  = (Ret false,
     {| self := self engine;
        log := [(ERROR, py "Error parsing JSON data: not json")] |}) /\
  JsonRef.loads (brackets 1000) = Raise RecursionError /\
  decide_access (Some (brackets 1000)) (Some (py "S")) engine
  = (Raise RecursionError, engine).
Proof.
  split; [reflexivity|]. split.
  - apply (proj1 (Properties.future_has_access_fails_closed
                    JsonRef.float_add JsonRef.int_to_float JsonRef.loads
                    (py "not json") (Some (py "S")) engine)).
    reflexivity.
  - assert (Hdeep : JsonRef.loads (brackets 1000) = Raise RecursionError)
      by (vm_compute; reflexivity).
    split; [exact Hdeep|].
    apply (proj2 (Properties.future_has_access_fails_closed
                    JsonRef.float_add JsonRef.int_to_float JsonRef.loads
                    (brackets 1000) (Some (py "S")) engine)
             RecursionError Hdeep).
    discriminate.
Defined.

(** With no marking the method returns before it parses: the profile is not
    JSON, and yet nothing is handed to the logger. *)
Lemma unparsable_profile_without_marking :
  JsonRef.loads (py "not json") = Raise ValueError /\
  log engine = [] /\
  decide_access (Some (py "not json")) (Some []) engine = (Ret false, engine) /\
  log (snd (decide_access (Some (py "not json")) (Some []) engine)) = [] /\
  log (snd (decide_access (Some (py "not json")) None engine)) = [].
Proof. repeat split. Qed.

Lemma future_has_access_needs_fields_witness :
  py "S" <> [] /\
  JsonRef.loads (json "[]") = Ret (VList []) /\
  has_field (VList (float:=Empty_set) []) (py "clearances") = false /\
  decide_access (Some (json "[]")) (Some (py "S")) engine
  = (Raise TypeError, engine).
Proof.
  split; [discriminate|]. do 2 (split; [reflexivity|]).
  apply (Properties.future_has_access_needs_fields
           JsonRef.float_add JsonRef.int_to_float JsonRef.loads
           (json "[]") (py "S") (VList []) engine
           ltac:(discriminate) eq_refl).
  reflexivity.
Defined.

Lemma entry_points_answer_witness :
  forallb Spec.has_names (tokens (self engine)) = true /\
  has_access (Some profile_S_ABC_XYZ) (Some (py "S//ABC")) engine
  = (Ret true, engine) /\
  (exists answer, validate (Some (py "S//ABC")) engine = (Ret answer, engine))
  /\
  JsonRef.loads profile_S_ABC_XYZ = Ret accesses_S_ABC_XYZ /\
  profile_arrays accesses_S_ABC_XYZ = true /\
  (exists answer w',
     decide_access (Some profile_S_ABC_XYZ) (Some (py "S//ABC")) engine
     = (Ret answer, w') /\
     self w' = self engine).
Proof.
  destruct (Properties.entry_points_answer
              JsonRef.float_add JsonRef.int_to_float ascii_upper JsonRef.loads
              (Some profile_S_ABC_XYZ) (Some (py "S//ABC")) engine eq_refl)
    as (Hhas & Hvalidate & Hdecide & _).
  split; [reflexivity|]. split; [exact Hhas|]. split; [exact Hvalidate|].
  do 2 (split; [reflexivity|]).
  apply Hdecide. right. exists profile_S_ABC_XYZ. split; reflexivity.
Defined.

(** Text that is nested deeper than the interpreter has room for: the
    [RecursionError] of [json.loads] is no [ValueError] and reaches the
    caller, with nothing logged. *)
Example deeply_nested_profile_raises :
  JsonRef.loads (brackets 1000) = Raise RecursionError /\
  JsonRef.loads (brackets 990) = Raise ValueError /\
  decide_access (Some (brackets 1000)) (Some (py "S")) engine
  = (Raise RecursionError, engine) /\
  decide_access (Some (brackets 1000)) (Some []) engine
  = (Ret false, engine).
Proof. repeat split; vm_compute; reflexivity. Qed.

(** A profile that is JSON but has no [clearances]: the [KeyError] of the
    subscript reaches the caller. *)
Lemma object_without_clearances_raises :
  JsonRef.loads (json "{}") = Ret (VDict []) /\
  decide_access (Some (json "{}")) (Some (py "S")) engine
  = (Raise (KeyError (py "clearances")), engine).
Proof. split; reflexivity. Qed.

End SourceEngine.

(** * Further properties of the plugin *)

Module MoreFacts.
Import Py all_tokens PluginMain Contract Engine Construction.
Import PyFacts TokenizerFacts ReadonlyFacts DecisionFacts.

Section Facts.

Context {float host : Type}.
Variable float_add : float -> float -> float.
Variable int_to_float : Z -> option float.
Variable upper : str -> str.
Variable json_loads : str -> outcome (value float).

#[local] Abbreviation value := (Py.value float).
#[local] Abbreviation dict := (Py.dict float).
#[local] Abbreviation Token := (all_tokens.Token float).
#[local] Abbreviation world := (@PluginMain.world float host).
#[local] Abbreviation future_has_access :=
  (@PluginMain.future_has_access float host float_add int_to_float json_loads).
#[local] Abbreviation validate_marking :=
  (@PluginMain.validate_marking float host upper).
#[local] Abbreviation _split_tokens :=
  (@PluginMain._split_tokens float host upper).
#[local] Abbreviation lookup := (@Spec.lookup float upper).
#[local] Abbreviation registered := (@Spec.registered float upper).

(** ** What the operators can raise *)

Lemma getitem_Raise (v : value) (k : str) (e : exn) :
  getitem v k = Raise e -> e = KeyError k \/ e = TypeError.
Proof.
  unfold getitem. destruct v; try (intros [= <-]; by right).
  destruct (dict_lookup k d); [discriminate|]. intros [= <-]. by left.
Qed.

Lemma contains_Raise (c : value) (x : str) (e : exn) :
  contains c x = Raise e -> e = TypeError.
Proof. destruct c; simpl; congruence. Qed.

Lemma iadd_Raise (a b : value) (e : exn) :
  iadd float_add int_to_float a b = Raise e ->
  e = TypeError \/ e = OverflowError.
Proof.
  assert (Hnum : forall x y,
             number_add float_add int_to_float x y = Raise e ->
             e = TypeError \/ e = OverflowError).
  { intros [x|f] [y|g]; simpl; try discriminate;
      unfold coerce; destruct (int_to_float _); simpl; try discriminate;
      intros [= <-]; by right. }
  destruct a, b; cbn [iadd iterate obind as_number];
    try discriminate; try (intros [= <-]; by left); apply Hnum.
Qed.

Lemma missing_controls_Raise (user_controls : value) (l : list str)
    (w w' : world) (e : exn) :
  filterM (fun i => b <- lift (contains user_controls i) ;; ret (negb b)) l w
  = (Raise e, w') ->
  e = TypeError.
Proof.
  revert w'. induction l as [|i l IH]; intros w'; [discriminate|].
  cbn [filterM]. unfold bind at 1. unfold bind at 1. unfold lift at 1.
  destruct (contains user_controls i) as [b|e'] eqn:Hc.
  - unfold ret at 1. unfold bind at 1.
    destruct (filterM _ l w) as [[r|e'] w''] eqn:Hrun; [discriminate|].
    intros [= <- <-]. by apply (IH w'').
  - intros [= <- <-]. by apply contains_Raise in Hc.
Qed.

(** ** The strict decision *)

Lemma future_has_access_null_profile (c : N) (m : str) (w : world) :
  future_has_access None (Some (c :: m)) w = (Raise TypeError, w).
Proof.
  unfold PluginMain.future_has_access.
  unfold bind at 1. unfold lift at 1.
  change (str_split (c :: m) (py "//"))
    with (Ret (split_scan (py "//") 0 (c :: m))).
  reflexivity.
Qed.

(** X1.  Whatever [future_has_access] is given, an exception that leaves it
    is a [TypeError], an [OverflowError], the [KeyError] of one of the
    three profile keys, or what [json.loads] itself raised on the profile
    when that is not a [ValueError]; nothing has been logged when it does.
    A [ValueError] never leaves it. *)
Theorem future_has_access_escapes (user_accesses_json marking : option str)
    (w w' : world) (e : exn) :
  future_has_access user_accesses_json marking w = (Raise e, w') ->
  w' = w /\
  e <> ValueError /\
  (e = TypeError \/ e = OverflowError \/ e = KeyError (py "clearances") \/
   e = KeyError (py "formal_accesses") \/ e = KeyError (py "visas") \/
   exists profile,
     user_accesses_json = Some profile /\ json_loads profile = Raise e).
Proof.
  intros Hrun.
  cut (w' = w /\
       ((e = TypeError \/ e = OverflowError \/ e = KeyError (py "clearances")
         \/ e = KeyError (py "formal_accesses") \/ e = KeyError (py "visas"))
        \/ e <> ValueError /\
           exists profile,
             user_accesses_json = Some profile /\
             json_loads profile = Raise e)).
  { intros [Hw [He|[He Hp]]]; (split; [exact Hw|]).
    - split; [|tauto].
      destruct He as [->|[->|[->|[->| ->]]]]; discriminate.
    - split; [exact He|]. do 5 right. exact Hp. }
  revert Hrun.
  destruct marking as [[|c m]|]; try discriminate.
  destruct user_accesses_json as [p|].
  2: { rewrite future_has_access_null_profile. intros [= <- <-]. auto. }
  destruct (json_loads p) as [v|e0] eqn:Hparse.
  2: { destruct (ValueError_or_not e0) as [->|He0].
       - by rewrite (future_has_access_unparsable _ _ _ _ _ w Hparse).
       - rewrite (future_has_access_uncaught _ _ _ _ _ _ _ w Hparse He0).
         intros [= <- <-]. split; [done|]. right. split; [done|].
         by exists p. }
  cut (future_has_access (Some p) (Some (c :: m)) w = (Raise e, w') ->
       w' = w /\
       (e = TypeError \/ e = OverflowError \/ e = KeyError (py "clearances")
        \/ e = KeyError (py "formal_accesses") \/ e = KeyError (py "visas"))).
  { intros H Hrun. destruct (H Hrun) as [Hw He]. auto. }
  rewrite (future_has_access_parsed _ _ _ _ _ _ _ w Hparse).
  destruct (split_scan_cons (py "//") (c :: m)) as (seg & rest & Hsplit).
  rewrite Hsplit. cbn [first tail].
  destruct (getitem v (py "clearances")) as [clearances|e1] eqn:Hc.
  2: { intros [= <- <-]. split; [done|].
       destruct (getitem_Raise _ _ _ Hc) as [->| ->]; auto. }
  destruct (contains clearances seg) as [held|e1] eqn:Hheld.
  2: { intros [= <- <-]. apply contains_Raise in Hheld. auto. }
  destruct (negb held); [discriminate|].
  destruct (getitem v (py "formal_accesses")) as [fa|e1] eqn:Hf.
  2: { intros [= <- <-]. split; [done|].
       destruct (getitem_Raise _ _ _ Hf) as [->| ->]; auto 6. }
  destruct (getitem v (py "visas")) as [vi|e1] eqn:Hv.
  2: { intros [= <- <-]. split; [done|].
       destruct (getitem_Raise _ _ _ Hv) as [->| ->]; auto 6. }
  destruct (iadd float_add int_to_float fa vi) as [uc|e1] eqn:Hadd.
  2: { intros [= <- <-]. split; [done|].
       destruct (iadd_Raise _ _ _ Hadd) as [->| ->]; auto. }
  pose proof (missing_controls_world uc rest w) as Hw.
  destruct (filterM _ rest w) as [[[|i missing]|e1] w''] eqn:Hrun;
    try discriminate.
  intros [= <- <-]. simpl in Hw. split; [done|].
  apply missing_controls_Raise in Hrun. auto.
Qed.

(** X2.  [future_has_access] hands the logger a record in one case only:
    the marking is not empty and the profile is a string that [json.loads]
    rejects with a [ValueError];
    the record is then the one error that quotes the profile.  On every
    other path, the raising ones included, nothing is logged, and the
    instance is never changed. *)
Theorem future_has_access_log (user_accesses_json marking : option str)
    (w : world) :
  snd (future_has_access user_accesses_json marking w) =
  match marking, user_accesses_json with
  | Some (_ :: _), Some profile =>
      match json_loads profile with
      | Raise ValueError =>
          {| self := self w;
             log := log w ++ [(ERROR, py "Error parsing JSON data: "
                                        ++ profile)] |}
      | _ => w
      end
  | _, _ => w
  end.
Proof.
  destruct marking as [[|c m]|]; try reflexivity.
  destruct user_accesses_json as [p|].
  2: { by rewrite future_has_access_null_profile. }
  destruct (json_loads p) as [v|e0] eqn:Hparse.
  2: { destruct (ValueError_or_not e0) as [->|He0].
       - by rewrite (future_has_access_unparsable _ _ _ _ _ w Hparse).
       - rewrite (future_has_access_uncaught _ _ _ _ _ _ _ w Hparse He0).
         by destruct e0. }
  rewrite (future_has_access_parsed _ _ _ _ _ _ _ w Hparse).
  destruct (getitem v (py "clearances")); [|reflexivity].
  destruct (first _); [|reflexivity].
  destruct (contains _ _) as [held|]; [|reflexivity].
  destruct (negb held); [reflexivity|].
  destruct (getitem v (py "formal_accesses")); [|reflexivity].
  destruct (getitem v (py "visas")); [|reflexivity].
  destruct (iadd _ _ _ _) as [uc|]; [|reflexivity].
  pose proof (missing_controls_world uc
                (tail (split_scan (py "//") 0 (c :: m))) w) as Hw.
  by destruct (filterM _ _ w) as [[[|i missing]|e1] w''].
Qed.

Lemma existsb_incl {A} (f : A -> bool) (l1 l2 : list A) :
  (forall x, In x l1 -> In x l2) ->
  existsb f l1 = true -> existsb f l2 = true.
Proof.
  intros Hincl. rewrite !existsb_exists. intros (x & Hin & Hx).
  exists x. split; [by apply Hincl|done].
Qed.

Lemma forallb_incl {A} (f : A -> bool) (l1 l2 : list A) :
  (forall x, In x l2 -> In x l1) ->
  forallb f l1 = true -> forallb f l2 = true.
Proof.
  intros Hincl. rewrite !forallb_forall. intros Hall x Hin.
  by apply Hall, Hincl.
Qed.

Lemma profile_arrays_fields (v : value) :
  profile_arrays v = true ->
  exists cl fa vi,
    array_field v (py "clearances") = Some cl /\
    array_field v (py "formal_accesses") = Some fa /\
    array_field v (py "visas") = Some vi.
Proof.
  unfold profile_arrays. intros H.
  apply andb_true_iff in H as [H Hv]. apply andb_true_iff in H as [Hc Hf].
  apply bool_decide_eq_true in Hc as [cl Hc].
  apply bool_decide_eq_true in Hf as [fa Hf].
  apply bool_decide_eq_true in Hv as [vi Hv].
  by exists cl, fa, vi.
Qed.

(** X3.  The required controls count as a set.  For a profile whose three
    fields are arrays, a marking that is granted stays granted when its
    controls are reordered, repeated or dropped: any marking with the same
    first segment whose further segments all occur among those of the
    granted one is granted too. *)
Theorem fewer_controls_still_granted (profile m1 m2 : str) (v : value)
    (clearance : str) (controls1 controls2 : list str) (w : world) :
  json_loads profile = Ret v ->
  profile_arrays v = true ->
  m1 <> [] -> m2 <> [] ->
  str_split m1 (py "//") = Ret (clearance :: controls1) ->
  str_split m2 (py "//") = Ret (clearance :: controls2) ->
  (forall x, In x controls2 -> In x controls1) ->
  future_has_access (Some profile) (Some m1) w = (Ret true, w) ->
  future_has_access (Some profile) (Some m2) w = (Ret true, w).
Proof.
  intros Hparse Harrays H1 H2 Hs1 Hs2 Hincl.
  destruct (profile_arrays_fields _ Harrays) as (cl & fa & vi & Hc & Hf & Hv).
  destruct m1 as [|c1 m1]; [congruence|].
  destruct m2 as [|c2 m2]; [congruence|].
  rewrite str_split_slashes in Hs1, Hs2.
  assert (Hscan1 : split_scan (py "//") 0 (c1 :: m1) = clearance :: controls1)
    by congruence.
  assert (Hscan2 : split_scan (py "//") 0 (c2 :: m2) = clearance :: controls2)
    by congruence.
  rewrite (future_has_access_arrays _ _ _ _ _ _ _ _ _ _ _ _ w
             Hparse Hc Hf Hv Hscan1).
  rewrite (future_has_access_arrays _ _ _ _ _ _ _ _ _ _ _ _ w
             Hparse Hc Hf Hv Hscan2).
  intros [= Hgranted]. apply andb_true_iff in Hgranted as [Hheld Hall].
  by rewrite Hheld, (forallb_incl _ _ _ Hincl Hall).
Qed.

(** X4.  Holding more never loses access.  Take two profiles whose three
    fields are arrays, the second holding every clearance of the first and,
    between [formal_accesses] and [visas] taken together, every control of
    the first: a marking granted under the first is granted under the
    second.  It does not matter in which of the two lists a control is
    held. *)
Theorem more_accesses_still_granted (profile1 profile2 marking : str)
    (v1 v2 : value) (cl1 fa1 vi1 cl2 fa2 vi2 : list value) (w : world) :
  json_loads profile1 = Ret v1 ->
  json_loads profile2 = Ret v2 ->
  array_field v1 (py "clearances") = Some cl1 ->
  array_field v1 (py "formal_accesses") = Some fa1 ->
  array_field v1 (py "visas") = Some vi1 ->
  array_field v2 (py "clearances") = Some cl2 ->
  array_field v2 (py "formal_accesses") = Some fa2 ->
  array_field v2 (py "visas") = Some vi2 ->
  (forall x, In x cl1 -> In x cl2) ->
  (forall x, In x fa1 \/ In x vi1 -> In x fa2 \/ In x vi2) ->
  future_has_access (Some profile1) (Some marking) w = (Ret true, w) ->
  future_has_access (Some profile2) (Some marking) w = (Ret true, w).
Proof.
  intros Hp1 Hp2 Hc1 Hf1 Hv1 Hc2 Hf2 Hv2 Hcl Hctl.
  destruct marking as [|c m]; [discriminate|].
  destruct (split_scan_cons (py "//") (c :: m)) as (seg & rest & Hsplit).
  rewrite (future_has_access_arrays _ _ _ _ _ _ _ _ _ _ _ _ w
             Hp1 Hc1 Hf1 Hv1 Hsplit).
  rewrite (future_has_access_arrays _ _ _ _ _ _ _ _ _ _ _ _ w
             Hp2 Hc2 Hf2 Hv2 Hsplit).
  intros [= Hgranted]. apply andb_true_iff in Hgranted as [Hheld Hall].
  rewrite (existsb_incl _ _ _ Hcl Hheld). cbn [andb]. f_equal. f_equal.
  rewrite forallb_forall in Hall |- *. intros x Hin.
  apply (existsb_incl _ (fa1 ++ vi1)); [|by apply Hall].
  intros y Hy. apply in_or_app, Hctl, in_app_or, Hy.
Qed.

(** ** The tokenizer and the validator *)

Lemma foldM_register_fail (name : Token -> value) (ts : list Token)
    (d : gmap str Token) (w : world) :
  forallb (fun t => match name t with VStr _ => true | _ => false end) ts
  = false ->
  foldM (register upper name) d ts w = (Raise AttributeError, w).
Proof.
  revert d. induction ts as [|t ts IH]; intros d Hname; [discriminate|].
  cbn [forallb] in Hname. cbn [foldM]. unfold bind at 1.
  unfold register at 1. unfold bind, lift, ret, call_upper.
  destruct (name t); try reflexivity. by apply IH.
Qed.

Lemma forallb_names_long (ts : list Token) :
  forallb (fun t => match long_name t with VStr _ => true | _ => false end) ts
  = true ->
  Forall (fun t => exists s, long_name t = VStr s) ts.
Proof.
  rewrite forallb_forall, Forall_forall. intros H t Hin.
  specialize (H t (proj1 (list_elem_of_In _ _) Hin)).
  destruct (long_name t); try discriminate. by eexists.
Qed.

Lemma has_names_split (ts : list Token) :
  forallb Spec.has_names ts =
  forallb (fun t => match long_name t with VStr _ => true | _ => false end) ts
  && forallb (fun t => match short_name t with VStr _ => true | _ => false end)
       ts.
Proof.
  induction ts as [|t ts IH]; [reflexivity|].
  cbn [forallb]. rewrite IH. unfold Spec.has_names.
  destruct (short_name t), (long_name t); cbn [andb];
    try reflexivity; try (by rewrite ?andb_false_r);
    by destruct (forallb _ ts).
Qed.

Lemma split_tokens_nameless (w : world) (m d : str) :
  forallb Spec.has_names (tokens (self w)) = false ->
  _split_tokens m d w = (Raise AttributeError, w).
Proof.
  rewrite has_names_split. intros Hnames.
  unfold PluginMain._split_tokens, get_tokens.
  unfold bind at 1. unfold bind at 1.
  destruct (forallb (fun t => match long_name t with
                              | VStr _ => true
                              | _ => false
                              end) (tokens (self w))) eqn:Hlong.
  - destruct (foldM_register upper long_name (tokens (self w)) ∅ w
                (forallb_names_long _ Hlong)) as (dl & Hl & _).
    rewrite Hl. unfold bind at 1. unfold bind at 1.
    by rewrite foldM_register_fail.
  - by rewrite foldM_register_fail.
Qed.

(** X5.  One token without a string for its long or its short name in
    [self.tokens] (an [InvalidFormatToken], say) disables the tokenizer and
    the validator: [_split_tokens] raises an [AttributeError] for every
    marking and every delimiter, and [validate_marking] raises it for every
    marking that is not empty. *)
Theorem nameless_token_breaks_tokenizer (w : world) :
  forallb Spec.has_names (tokens (self w)) = false ->
  (forall input_marking delimiter,
     _split_tokens input_marking delimiter w = (Raise AttributeError, w)) /\
  (forall c marking,
     validate_marking (Some (c :: marking)) w = (Raise AttributeError, w)) /\
  validate_marking None w = (Ret false, w) /\
  validate_marking (Some []) w = (Ret false, w).
Proof.
  intros Hnames. split; [|split; [|split; reflexivity]].
  - intros m d. by apply split_tokens_nameless.
  - intros c m. unfold PluginMain.validate_marking. unfold bind at 1.
    by rewrite split_tokens_nameless.
Qed.

Lemma split_tokens_empty_delimiter (w : world) (m : str) :
  forallb Spec.has_names (tokens (self w)) = true ->
  _split_tokens m [] w = (Raise ValueError, w).
Proof.
  intros Hnames.
  destruct (foldM_register upper long_name (tokens (self w)) ∅ w
              (has_names_long _ Hnames)) as (dl & Hl & _).
  destruct (foldM_register upper short_name (tokens (self w)) ∅ w
              (has_names_short _ Hnames)) as (ds & Hs & _).
  unfold PluginMain._split_tokens, get_tokens.
  unfold bind at 1. unfold bind at 1. rewrite Hl.
  unfold bind at 1. unfold bind at 1. rewrite Hs.
  reflexivity.
Qed.

(** X6.  With any delimiter the tokenizer is the split followed by the
    lookup of each segment, on an engine whose tokens all have their two
    names: it raises exactly when [split] does, that is the [ValueError] of
    an empty delimiter, and for every other delimiter the segments, joined
    by the delimiter, give the marking back and none of them holds the
    delimiter. *)
Theorem split_tokens_any_delimiter (w : world) (input_marking delimiter : str) :
  forallb Spec.has_names (tokens (self w)) = true ->
  _split_tokens input_marking delimiter w =
  (obind (str_split input_marking delimiter)
     (fun segments => Ret (map (lookup (tokens (self w))) segments)), w) /\
  (delimiter = [] ->
   _split_tokens input_marking delimiter w = (Raise ValueError, w)) /\
  (delimiter <> [] ->
   exists segments,
     str_split input_marking delimiter = Ret segments /\
     str_join delimiter segments = input_marking /\
     Forall (fun seg => str_contains seg delimiter = false) segments).
Proof.
  intros Hnames. split; [|split].
  - destruct delimiter as [|c d].
    + by apply split_tokens_empty_delimiter.
    + by rewrite split_tokens_lookup.
  - intros ->. by apply split_tokens_empty_delimiter.
  - intros Hd. exists (split_scan delimiter 0 input_marking).
    split; [by destruct delimiter|].
    split; [by apply str_join_split_scan|by apply split_scan_free].
Qed.

Lemma lookup_same_case (ts : list Token) (a b : str) :
  upper a = upper b ->
  is_ClassificationToken (lookup ts a) = is_ClassificationToken (lookup ts b).
Proof.
  intros Hab. unfold Spec.lookup. rewrite <- Hab.
  destruct (registered long_name ts (upper a)); [reflexivity|].
  by destruct (registered short_name ts (upper a)).
Qed.

(** X7.  The validator does not look at the case of the first segment: on
    an engine whose tokens all have their two names, two markings whose
    first segments have the same uppercase form get the same answer. *)
Theorem validate_marking_ignores_case (w : world) (m1 m2 seg1 seg2 : str)
    (rest1 rest2 : list str) :
  forallb Spec.has_names (tokens (self w)) = true ->
  m1 <> [] -> m2 <> [] ->
  str_split m1 (py "//") = Ret (seg1 :: rest1) ->
  str_split m2 (py "//") = Ret (seg2 :: rest2) ->
  upper seg1 = upper seg2 ->
  validate_marking (Some m1) w = validate_marking (Some m2) w.
Proof.
  intros Hnames H1 H2 Hs1 Hs2 Hcase.
  destruct m1 as [|c1 m1]; [congruence|].
  destruct m2 as [|c2 m2]; [congruence|].
  rewrite str_split_slashes in Hs1, Hs2.
  etrans.
  { apply (validate_marking_run upper w c1 m1 seg1 rest1 Hnames). congruence. }
  symmetry. etrans.
  { apply (validate_marking_run upper w c2 m2 seg2 rest2 Hnames). congruence. }
  by rewrite (lookup_same_case _ _ _ Hcase).
Qed.

Lemma filed_name (name : Token -> value) (key : str) (t : Token) :
  Spec.filed upper name key t = true ->
  exists s, name t = VStr s /\ upper s = key.
Proof.
  unfold Spec.filed. destruct (name t); try discriminate.
  intros H. apply str_eqb_eq in H. by eexists.
Qed.

(** X8.  The validator accepts a marking only on the strength of the
    registry: when [validate_marking] answers [True], [self.tokens] holds a
    [ClassificationToken] whose long or short name has the uppercase form
    of the marking's first segment. *)
Theorem validate_marking_true_registered (w w' : world) (marking : str) :
  forallb Spec.has_names (tokens (self w)) = true ->
  validate_marking (Some marking) w = (Ret true, w') ->
  exists seg rest t s,
    str_split marking (py "//") = Ret (seg :: rest) /\
    In t (tokens (self w)) /\
    is_ClassificationToken t = true /\
    (long_name t = VStr s \/ short_name t = VStr s) /\
    upper s = upper seg.
Proof.
  intros Hnames. destruct marking as [|c m]; [discriminate|].
  destruct (split_scan_cons (py "//") (c :: m)) as (seg & rest & Hsplit).
  pose proof (validate_marking_run upper w c m seg rest Hnames Hsplit) as Hv.
  intros Hrun.
  assert (Hclass : is_ClassificationToken (lookup (tokens (self w)) seg)
                   = true).
  { assert (Heq : (Ret (is_ClassificationToken
                          (lookup (tokens (self w)) seg)), w)
                  = (Ret true, w')) by (etrans; [symmetry; exact Hv|exact Hrun]).
    congruence. }
  clear Hv Hrun. exists seg, rest.
  unfold Spec.lookup in Hclass.
  destruct (registered long_name (tokens (self w)) (upper seg)) as [t|]
    eqn:Hl.
  { destruct (registered_filed _ _ _ _ _ Hl) as [Hin Hf].
    destruct (filed_name _ _ _ Hf) as (s & Hs & Hup).
    exists t, s. rewrite str_split_slashes, Hsplit.
    repeat split; auto. by apply list_elem_of_In. }
  destruct (registered short_name (tokens (self w)) (upper seg)) as [t|]
    eqn:Hsh; [|discriminate].
  destruct (registered_filed _ _ _ _ _ Hsh) as [Hin Hf].
  destruct (filed_name _ _ _ Hf) as (s & Hs & Hup).
  exists t, s. rewrite str_split_slashes, Hsplit.
  repeat split; auto. by apply list_elem_of_In.
Qed.

Lemma split_scan_whole (sep s : str) :
  sep <> [] -> str_contains s sep = false -> split_scan sep 0 s = [s].
Proof.
  intros Hsep. induction s as [|c s IH]; [reflexivity|].
  cbn [str_contains]. intros H. apply orb_false_iff in H as [Hp Hs].
  rewrite split_scan_step by done. by rewrite IH.
Qed.

Lemma registered_Some (name : Token -> value) (ts : list Token) (key : str)
    (t : Token) :
  In t ts -> Spec.filed upper name key t = true ->
  exists t', registered name ts key = Some t'.
Proof.
  intros Hin Hf. destruct (registered name ts key) as [t'|] eqn:Hr;
    [by eexists|].
  rewrite (registered_None upper) in Hr.
  rewrite (Hr t) in Hf; [discriminate|by apply list_elem_of_In].
Qed.

(** X9.  What is registered is found.  On an engine whose tokens all have
    their two names, tokenizing a name of one of its tokens (a name
    without ["//"]) gives one token, which is a token of the engine that
    bears a name with the same uppercase form; a long name is always
    answered by a token with that long name. *)
Theorem registered_names_resolve (w : world) (t : Token) (name : str) :
  forallb Spec.has_names (tokens (self w)) = true ->
  In t (tokens (self w)) ->
  long_name t = VStr name \/ short_name t = VStr name ->
  str_contains name (py "//") = false ->
  exists t' s,
    _split_tokens name (py "//") w = (Ret [t'], w) /\
    In t' (tokens (self w)) /\
    (long_name t' = VStr s \/ short_name t' = VStr s) /\
    upper s = upper name /\
    (long_name t = VStr name -> long_name t' = VStr s).
Proof.
  intros Hnames Hin Hname Hfree.
  rewrite split_tokens_lookup by done.
  rewrite split_scan_whole by done. cbn [map]. unfold Spec.lookup.
  destruct (registered long_name (tokens (self w)) (upper name)) as [t'|]
    eqn:Hl.
  { destruct (registered_filed _ _ _ _ _ Hl) as [Hin' Hf].
    destruct (filed_name _ _ _ Hf) as (s & Hs & Hup).
    exists t', s. repeat split; auto. by apply list_elem_of_In. }
  assert (Hnotlong : long_name t <> VStr name).
  { intros Hlong.
    destruct (registered_Some long_name _ (upper name) t Hin) as [t' Ht'].
    - unfold Spec.filed. rewrite Hlong. by apply str_eqb_eq.
    - congruence. }
  destruct Hname as [Hlong|Hshort]; [done|].
  destruct (registered_Some short_name _ (upper name) t Hin) as [t' Ht'].
  { unfold Spec.filed. rewrite Hshort. by apply str_eqb_eq. }
  rewrite Ht'.
  destruct (registered_filed _ _ _ _ _ Ht') as [Hin' Hf].
  destruct (filed_name _ _ _ Hf) as (s & Hs & Hup).
  exists t', s. repeat split; auto; [by apply list_elem_of_In|done].
Qed.

(** ** Construction *)

Lemma convert_dict_to_token_run (input : dict) (w : world) :
  exists t,
    _convert_dict_to_token input w
    = (if unpacks_no_mapping input then Raise TypeError else Ret t, w).
Proof.
  unfold _convert_dict_to_token, unpacks_no_mapping, recognised.
  destruct (dict_get input (py "type")) as [| | | |s| |];
    destruct (dict_get input (py "data"));
    cbn [is_none orb eq_str andb];
    try destruct (str_eqb s (py "Classification"));
    try destruct (str_eqb s (py "DisseminationControl"));
    cbn [orb andb]; unfold bind, lift, ret, kwargs;
    first [by eexists|by exists (InvalidFormatToken [])].
Qed.

(** X10.  When construction throws.  Converting a list of configuration
    definitions raises exactly when one of them has a known type
    ([Classification] or [DisseminationControl]) and a [data] that is
    neither [None] nor a mapping; the exception is then the [TypeError] of
    unpacking it.  In every other case there is one token per definition,
    whatever else the definitions hold. *)
Theorem conversion_raises_exactly (definitions : list dict) (w : world) :
  (existsb unpacks_no_mapping definitions = true ->
   mapM _convert_dict_to_token definitions w = (Raise TypeError, w)) /\
  (existsb unpacks_no_mapping definitions = false ->
   exists ts,
     mapM _convert_dict_to_token definitions w = (Ret ts, w) /\
     length ts = length definitions).
Proof.
  induction definitions as [|input definitions [IHraise IHret]].
  - split; [discriminate|]. intros _. by exists [].
  - cbn [existsb mapM]. unfold bind at 1 3.
    destruct (convert_dict_to_token_run input w) as [t Ht].
    rewrite (Ht : @_convert_dict_to_token float host input w = _).
    destruct (unpacks_no_mapping input); cbn [orb].
    + split; [done|discriminate].
    + unfold bind, ret. split.
      * intros H. by rewrite (IHraise H).
      * intros H. destruct (IHret H) as (ts & Hrun & Hlen).
        exists (t :: ts). rewrite Hrun. split; [done|]. simpl. by rewrite Hlen.
Qed.

End Facts.
End MoreFacts.

(** * PKI authentication *)

Module PkiFacts.
Import Py PyText Eff pkiauth PyFacts TokenizerFacts MoreFacts.
#[local] Open Scope eff_scope.

(** ** Distinguished names *)

Lemma str_contains_char (s : str) (a : N) :
  str_contains s [a] = existsb (N.eqb a) s.
Proof.
  induction s as [|c s IH]; [reflexivity|].
  cbn [str_contains existsb startswith]. by rewrite IH, andb_true_r.
Qed.

Lemma split_scan_prefix_char (a : N) (p s : str) :
  str_contains p [a] = false ->
  split_scan [a] 0 (p ++ [a] ++ s) = p :: split_scan [a] 0 s.
Proof.
  induction p as [|c p IH]; intros Hfree.
  - by apply (split_scan_at_sep [a] s).
  - cbn [str_contains startswith] in Hfree.
    apply orb_false_iff in Hfree as [Hc Hp]. rewrite andb_true_r in Hc.
    change ((c :: p) ++ [a] ++ s) with (c :: (p ++ [a] ++ s)).
    rewrite split_scan_step.
    + by rewrite (IH Hp).
    + cbn [startswith]. by rewrite Hc.
Qed.

(** Cutting at a character undoes joining with it. *)
Lemma split_scan_join_char (a : N) (parts : list str) :
  parts <> [] ->
  Forall (fun p => str_contains p [a] = false) parts ->
  split_scan [a] 0 (str_join [a] parts) = parts.
Proof.
  intros Hne Hfree. induction Hfree as [|p parts Hp Hparts IH]; [done|].
  destruct parts as [|q parts].
  - by apply split_scan_whole.
  - change (str_join [a] (p :: q :: parts))
      with (p ++ [a] ++ str_join [a] (q :: parts)).
    rewrite (split_scan_prefix_char _ _ _ Hp). by rewrite IH.
Qed.

Lemma existsb_app_char (a : N) (s t : str) :
  existsb (N.eqb a) (s ++ t) = existsb (N.eqb a) s || existsb (N.eqb a) t.
Proof. apply existsb_app. Qed.

Lemma str_join_char_free (a : N) (sep : str) (segs : list str) :
  existsb (N.eqb a) sep = false ->
  Forall (fun seg => existsb (N.eqb a) seg = false) segs ->
  existsb (N.eqb a) (str_join sep segs) = false.
Proof.
  intros Hsep Hsegs. induction Hsegs as [|seg segs Hseg _ IH]; [reflexivity|].
  destruct segs as [|seg' segs]; [exact Hseg|].
  change (str_join sep (seg :: seg' :: segs))
    with (seg ++ sep ++ str_join sep (seg' :: segs)).
  by rewrite !existsb_app_char, Hseg, Hsep, IH.
Qed.

(** X11.  [_preprocess_dn] drops the first character of its argument,
    whatever it is, and turns the rest around: for a distinguished name
    made of a leading character and components joined by slashes, none of
    them holding a slash, the result is the components in reverse order,
    joined by a comma and a space. *)
Theorem preprocess_dn_reverses (c : N) (components : list str) :
  components <> [] ->
  Forall (fun p => str_contains p (py "/") = false) components ->
  _preprocess_dn (c :: str_join (py "/") components)
  = Ret (str_join (py ", ") (rev components)).
Proof.
  intros Hne Hfree. unfold _preprocess_dn.
  change (py "/") with [47%N] in *.
  change (drop 1 (c :: str_join [47%N] components))
    with (str_join [47%N] components).
  change (str_split (str_join [47%N] components) [47%N])
    with (Ret (split_scan [47%N] 0 (str_join [47%N] components))).
  cbn [obind].
  by rewrite (split_scan_join_char 47%N components Hne Hfree).
Qed.

(** X12.  [_preprocess_dn] never raises on a string, and no slash is left
    in what it returns. *)
Theorem preprocess_dn_no_slash (original_dn : str) :
  exists dn,
    _preprocess_dn original_dn = Ret dn /\
    str_contains dn (py "/") = false.
Proof.
  unfold _preprocess_dn. eexists. split; [reflexivity|].
  change (py "/") with [47%N]. rewrite str_contains_char.
  apply str_join_char_free; [reflexivity|].
  apply Forall_rev.
  pose proof (split_scan_free [47%N] (drop 1 original_dn) ltac:(done)) as H.
  eapply Forall_impl; [exact H|].
  intros seg Hseg. simpl in Hseg. by rewrite <- str_contains_char.
Qed.

(** ** Authentication *)

Section Authentication.

Context {db E Profile User : Type}.

Variable profile_user : Profile -> User.
Variable profile_issuer_dn : Profile -> option str.
Variable set_issuer_dn : Profile -> str -> Profile.
Variable user_username : User -> str.
Variable user_is_active : User -> bool.
Variable Profile_filter_dn_iexact_first :
  str -> db -> result E (option Profile) * db.
Variable Profile_save : Profile -> db -> result E unit * db.
Variable User_filter_username_count : str -> db -> result E N * db.
Variable User_filter_username_startswith_count :
  str -> db -> result E N * db.
Variable Profile_create_user :
  str -> str -> str -> str -> db -> result E Profile * db.
Variable find_between : str -> str -> str -> outcome str.
Variable lower : str -> str.
Variable PREPROCESS_DN : bool.

#[local] Abbreviation world := (@pkiauth.world db).
#[local] Abbreviation M := (Eff.M E world).
#[local] Abbreviation _get_profile_by_dn :=
  (_get_profile_by_dn profile_user profile_issuer_dn set_issuer_dn
     user_username user_is_active Profile_filter_dn_iexact_first Profile_save
     User_filter_username_count User_filter_username_startswith_count
     Profile_create_user find_between lower).
#[local] Abbreviation authenticate :=
  (authenticate profile_user profile_issuer_dn set_issuer_dn
     user_username user_is_active Profile_filter_dn_iexact_first Profile_save
     User_filter_username_count User_filter_username_startswith_count
     Profile_create_user find_between lower PREPROCESS_DN).

Lemma log_grows_ret {A} (a : A) : log_grows (E:=E) (db:=db) (ret a).
Proof. intros w. exists []. by rewrite app_nil_r. Qed.

Lemma log_grows_lift {A} (o : outcome A) : log_grows (E:=E) (db:=db) (lift o).
Proof. intros w. exists []. destruct o; by rewrite app_nil_r. Qed.

Lemma log_grows_logger (level : log_level) (msg : str) :
  log_grows (E:=E) (db:=db) (logger level msg).
Proof. intros w. by exists [(level, msg)]. Qed.

Lemma log_grows_query {A} (q : db -> result E A * db) :
  log_grows (query q).
Proof.
  intros w. exists []. unfold query. destruct (q (database w)).
  by rewrite app_nil_r.
Qed.

Lemma log_grows_bind {A B} (m : M A) (k : A -> M B) :
  log_grows m -> (forall a, log_grows (k a)) -> log_grows (bind m k).
Proof.
  intros Hm Hk w. unfold bind. destruct (Hm w) as [l Hl].
  destruct (m w) as [[a|r] w1]; simpl in Hl.
  - destruct (Hk a w1) as [l' Hl']. exists (l ++ l').
    by rewrite Hl', Hl, app_assoc.
  - by exists l.
Qed.

#[local] Ltac log_grows_step :=
  first
    [ apply log_grows_ret
    | apply log_grows_lift
    | apply log_grows_logger
    | apply log_grows_query
    | apply log_grows_bind; [|intros ?] ].

Lemma log_grows_get_profile_by_dn (dn issuer_dn : str) :
  log_grows (_get_profile_by_dn dn issuer_dn).
Proof.
  unfold pkiauth._get_profile_by_dn.
  apply log_grows_bind; [apply log_grows_query|].
  intros [profile|].
  - destruct (negb (user_is_active _)); [repeat log_grows_step|].
    apply log_grows_bind; [|intros ?; apply log_grows_ret].
    destruct (negb (bool_decide _)); repeat log_grows_step.
  - apply log_grows_bind; [apply log_grows_logger|]. intros _.
    apply log_grows_bind.
    { destruct (str_contains dn (py "CN=")); log_grows_step. }
    intros cn.
    apply log_grows_bind; [apply log_grows_query|]. intros count.
    apply log_grows_bind.
    { destruct (negb (count =? 0)%N); repeat log_grows_step. }
    intros username.
    apply log_grows_bind; [apply log_grows_query|]. intros count'.
    destruct (negb (count' =? 0)%N); repeat log_grows_step.
Qed.

Lemma presented_Some (r : request) (dn issuer_dn : str) :
  presented r = Some (dn, issuer_dn) ->
  is_secure r = true /\
  META r !! py "HTTP_X_SSL_AUTHENTICATED" = Some (py "SUCCESS") /\
  META r !! py "HTTP_X_SSL_USER_DN" = Some dn /\ dn <> [] /\
  META r !! py "HTTP_X_SSL_ISSUER_DN" = Some issuer_dn /\ issuer_dn <> [].
Proof.
  unfold presented. destruct (is_secure r); [|discriminate].
  destruct (META r !! py "HTTP_X_SSL_AUTHENTICATED") as [status|];
    [|discriminate].
  destruct (META r !! py "HTTP_X_SSL_USER_DN") as [[|c d]|];
    try discriminate.
  destruct (META r !! py "HTTP_X_SSL_ISSUER_DN") as [[|c' i]|];
    try discriminate.
  destruct (str_eqb status (py "SUCCESS")) eqn:Hs; [|discriminate].
  apply str_eqb_eq in Hs as ->. intros [= <- <-]. by repeat split.
Qed.

Lemma authenticate_refuses_bad_headers_aux (r : request) (w : world) :
  presented r = None ->
  exists msg,
    authenticate r w
    = (Returned None,
       {| database := database w; log := log w ++ [(ERROR, msg)] |}).
Proof.
  unfold presented, pkiauth.authenticate.
  destruct (is_secure r); cbn [negb]; [|intros _; by eexists].
  destruct (META r !! py "HTTP_X_SSL_AUTHENTICATED") as [[|c status]|];
    try (intros _; by eexists).
  destruct (str_eqb (c :: status) (py "SUCCESS")); cbn [negb].
  2: { intros _. by eexists. }
  destruct (META r !! py "HTTP_X_SSL_USER_DN") as [[|c1 dn]|];
    try (intros _; by eexists).
  destruct (META r !! py "HTTP_X_SSL_ISSUER_DN") as [[|c2 issuer_dn]|];
    try (intros _; by eexists).
  discriminate.
Qed.

(** X13.  A request that is not secure, or whose
    [HTTP_X_SSL_AUTHENTICATED] header is not exactly [SUCCESS], or that
    lacks a non-empty user DN or issuer DN, is refused before any query:
    [authenticate] returns [None], the database is as it was and one error
    record has been logged. *)
Theorem authenticate_refuses_bad_headers (r : request) (w : world) :
  presented r = None ->
  exists msg,
    authenticate r w
    = (Returned None,
       {| database := database w; log := log w ++ [(ERROR, msg)] |}).
Proof. apply authenticate_refuses_bad_headers_aux. Qed.

(** The method once the headers have passed. *)
Lemma authenticate_presented (r : request) (dn issuer_dn : str) (w : world) :
  presented r = Some (dn, issuer_dn) ->
  authenticate r w =
  (dns <-
     (if PREPROCESS_DN then
        dn <- lift (_preprocess_dn dn) ;;
        issuer_dn <- lift (_preprocess_dn issuer_dn) ;;
        ret (dn, issuer_dn)
      else ret (dn, issuer_dn)) ;;
   let '(dn, issuer_dn) := dns in
   logger INFO
     (py "Attempting to authenticate user with dn: " ++ dn
        ++ py " and issuer dn: " ++ issuer_dn) ;;
   profile <- _get_profile_by_dn dn issuer_dn ;;
   match profile with
   | Some profile =>
       logger INFO
         (py "found user " ++ user_username (profile_user profile)
            ++ py ", authentication succeeded") ;;
       ret (Some (profile_user profile))
   | None =>
       logger ERROR
         (py "Failed to find/create user for dn " ++ dn
            ++ py ". Authentication failed") ;;
       ret None
   end) w.
Proof.
  unfold presented, pkiauth.authenticate.
  destruct (is_secure r); cbn [negb]; [|discriminate].
  destruct (META r !! py "HTTP_X_SSL_AUTHENTICATED") as [[|c status]|];
    try discriminate.
  1: { destruct (META r !! py "HTTP_X_SSL_USER_DN") as [[|? ?]|];
         try discriminate.
       destruct (META r !! py "HTTP_X_SSL_ISSUER_DN") as [[|? ?]|];
         discriminate. }
  destruct (META r !! py "HTTP_X_SSL_USER_DN") as [[|c1 dn1]|];
    try discriminate.
  destruct (META r !! py "HTTP_X_SSL_ISSUER_DN") as [[|c2 issuer_dn1]|];
    try discriminate.
  destruct (str_eqb (c :: status) (py "SUCCESS")); cbn [negb];
    [|discriminate].
  by intros [= <- <-].
Qed.

Lemma preprocess_dn_returns (original_dn : str) :
  exists dn, _preprocess_dn original_dn = Ret dn.
Proof. unfold _preprocess_dn. by eexists. Qed.

(** The DNs that the lookup is made with. *)
Lemma effective_dns (dn issuer_dn : str) (w : world) :
  exists dn' issuer_dn',
    (if PREPROCESS_DN then _preprocess_dn dn else Ret dn) = Ret dn' /\
    (if PREPROCESS_DN then _preprocess_dn issuer_dn else Ret issuer_dn)
    = Ret issuer_dn' /\
    (if PREPROCESS_DN then
       dn <- lift (_preprocess_dn dn) ;;
       issuer_dn <- lift (_preprocess_dn issuer_dn) ;;
       ret (dn, issuer_dn)
     else ret (dn, issuer_dn)) w
    = (Returned (E:=E) (dn', issuer_dn'), w).
Proof.
  destruct PREPROCESS_DN; [|by exists dn, issuer_dn].
  destruct (preprocess_dn_returns dn) as [dn' Hd].
  destruct (preprocess_dn_returns issuer_dn) as [issuer_dn' Hi].
  exists dn', issuer_dn'. split; [done|]. split; [done|].
  unfold bind, lift, ret. by rewrite Hd, Hi.
Qed.

(** X14.  [authenticate] returns a user only for a request over HTTPS
    whose [HTTP_X_SSL_AUTHENTICATED] header is exactly [SUCCESS] and whose
    user DN and issuer DN headers are present and not empty, whatever the
    database holds and whatever the queries do. *)
Theorem authenticate_success_needs_headers (r : request) (w w' : world)
    (u : User) :
  authenticate r w = (Returned (Some u), w') ->
  is_secure r = true /\
  META r !! py "HTTP_X_SSL_AUTHENTICATED" = Some (py "SUCCESS") /\
  exists dn issuer_dn,
    META r !! py "HTTP_X_SSL_USER_DN" = Some dn /\ dn <> [] /\
    META r !! py "HTTP_X_SSL_ISSUER_DN" = Some issuer_dn /\ issuer_dn <> [].
Proof.
  intros Hrun. destruct (presented r) as [[dn issuer_dn]|] eqn:Hp.
  - destruct (presented_Some _ _ _ Hp) as (? & ? & ? & ? & ? & ?).
    split; [done|]. split; [done|]. by exists dn, issuer_dn.
  - destruct (authenticate_refuses_bad_headers_aux r w Hp) as [msg Hmsg].
    rewrite Hmsg in Hrun. discriminate.
Qed.

(** X15.  No refusal goes unrecorded: whenever [authenticate] returns
    [None], the log has only grown and its last record is an error. *)
Theorem authenticate_refusal_logged (r : request) (w w' : world) :
  authenticate r w = (Returned None, w') ->
  exists records msg, log w' = log w ++ records ++ [(ERROR, msg)].
Proof.
  destruct (presented r) as [[dn issuer_dn]|] eqn:Hp.
  2: { destruct (authenticate_refuses_bad_headers_aux r w Hp) as [msg ->].
       intros [= <-]. by exists [], msg. }
  rewrite (authenticate_presented _ _ _ _ Hp).
  destruct (effective_dns dn issuer_dn w) as (dn' & issuer_dn' & _ & _ & Hdns).
  unfold bind at 1. rewrite Hdns. unfold bind at 1. unfold logger at 1.
  set (w1 := {| database := database w; log := _ |}).
  unfold bind at 1.
  destruct (log_grows_get_profile_by_dn dn' issuer_dn' w1) as [l Hl].
  destruct (_get_profile_by_dn dn' issuer_dn' w1) as [[[p|]|e] w2].
  all: cbn [snd] in Hl.
  all: unfold bind, logger, ret.
  - intros H. apply (f_equal fst) in H. cbn [fst] in H. congruence.
  - intros H. apply (f_equal snd) in H. cbn [snd] in H. rewrite <- H.
    cbn [log]. rewrite Hl. subst w1. cbn [log].
    match goal with
    | |- exists _ _, ((_ ++ [?i]) ++ _) ++ [(_, ?m)] = _ =>
        exists (i :: l), m
    end.
    by rewrite <- !app_assoc.
  - intros H. apply (f_equal fst) in H. cbn [fst] in H. congruence.
Qed.

Lemma given_dns (dn issuer_dn dn' issuer_dn' : str) (w : world) :
  (if PREPROCESS_DN then _preprocess_dn dn else Ret dn) = Ret dn' ->
  (if PREPROCESS_DN then _preprocess_dn issuer_dn else Ret issuer_dn)
  = Ret issuer_dn' ->
  (if PREPROCESS_DN then
     dn <- lift (_preprocess_dn dn) ;;
     issuer_dn <- lift (_preprocess_dn issuer_dn) ;;
     ret (dn, issuer_dn)
   else ret (dn, issuer_dn)) w
  = (Returned (E:=E) (dn', issuer_dn'), w).
Proof.
  destruct PREPROCESS_DN.
  - intros Hd Hi. unfold bind, lift, ret. by rewrite Hd, Hi.
  - by intros [= <-] [= <-].
Qed.

Lemma get_profile_by_dn_found (dn issuer_dn : str) (w : world) (p : Profile)
    (d : db) :
  Profile_filter_dn_iexact_first dn (database w) = (Returned (Some p), d) ->
  _get_profile_by_dn dn issuer_dn w =
  (if negb (user_is_active (profile_user p)) then
     logger WARNING
       (py "User " ++ dn ++ py " tried to login but is inactive") ;;
     ret None
   else
     profile <-
       (if negb (bool_decide (profile_issuer_dn p = Some issuer_dn)) then
          logger INFO
            (py "updating issuer dn for user "
               ++ user_username (profile_user p)) ;;
          query (Profile_save (set_issuer_dn p issuer_dn)) ;;
          ret (set_issuer_dn p issuer_dn)
        else ret p) ;;
     ret (Some profile))
    {| database := d; log := log w |}.
Proof.
  intros Hlookup. unfold pkiauth._get_profile_by_dn.
  unfold bind at 1. unfold query at 1. by rewrite Hlookup.
Qed.

(** The method once the headers have passed and the DNs are fixed. *)
Lemma authenticate_lookup (r : request) (w : world)
    (dn issuer_dn dn' issuer_dn' : str) :
  presented r = Some (dn, issuer_dn) ->
  (if PREPROCESS_DN then _preprocess_dn dn else Ret dn) = Ret dn' ->
  (if PREPROCESS_DN then _preprocess_dn issuer_dn else Ret issuer_dn)
  = Ret issuer_dn' ->
  authenticate r w =
  (profile <- _get_profile_by_dn dn' issuer_dn' ;;
   match profile with
   | Some profile =>
       logger INFO
         (py "found user " ++ user_username (profile_user profile)
            ++ py ", authentication succeeded") ;;
       ret (Some (profile_user profile))
   | None =>
       logger ERROR
         (py "Failed to find/create user for dn " ++ dn'
            ++ py ". Authentication failed") ;;
       ret None
   end)
    {| database := database w;
       log := log w ++
         [(INFO,
           py "Attempting to authenticate user with dn: " ++ dn'
             ++ py " and issuer dn: " ++ issuer_dn')] |}.
Proof.
  intros Hp Hd Hi. rewrite (authenticate_presented _ _ _ _ Hp).
  unfold bind at 1. rewrite (given_dns _ _ _ _ w Hd Hi).
  unfold bind at 1. unfold logger at 1. reflexivity.
Qed.

(** X16.  The login of a known user only reads.  When the headers pass
    and the lookup by the (preprocessed) DN finds a profile, an inactive
    user is refused, and an active user whose issuer DN is the one on file
    is authenticated as the profile's user; in both cases the database has
    seen the lookup and nothing else. *)
Theorem authenticate_known_user (r : request) (w : world)
    (dn issuer_dn dn' issuer_dn' : str) (p : Profile) (d : db) :
  presented r = Some (dn, issuer_dn) ->
  (if PREPROCESS_DN then _preprocess_dn dn else Ret dn) = Ret dn' ->
  (if PREPROCESS_DN then _preprocess_dn issuer_dn else Ret issuer_dn)
  = Ret issuer_dn' ->
  Profile_filter_dn_iexact_first dn' (database w) = (Returned (Some p), d) ->
  (user_is_active (profile_user p) = false ->
   fst (authenticate r w) = Returned None /\
   database (snd (authenticate r w)) = d) /\
  (user_is_active (profile_user p) = true ->
   profile_issuer_dn p = Some issuer_dn' ->
   fst (authenticate r w) = Returned (Some (profile_user p)) /\
   database (snd (authenticate r w)) = d).
Proof.
  intros Hp Hd Hi Hlookup. split.
  - intros Hactive.
    assert (Hrun : exists l,
               authenticate r w
               = (Returned None, {| database := d; log := l |})).
    { rewrite (authenticate_lookup _ w _ _ _ _ Hp Hd Hi).
      unfold bind at 1.
      rewrite (get_profile_by_dn_found dn' issuer_dn' _ p d) by exact Hlookup.
      rewrite Hactive. cbn [negb]. unfold bind, logger, ret.
      cbn [database log]. by eexists. }
    by destruct Hrun as [l ->].
  - intros Hactive Hissuer.
    assert (Hrun : exists l,
               authenticate r w
               = (Returned (Some (profile_user p)),
                  {| database := d; log := l |})).
    { rewrite (authenticate_lookup _ w _ _ _ _ Hp Hd Hi).
      unfold bind at 1.
      rewrite (get_profile_by_dn_found dn' issuer_dn' _ p d) by exact Hlookup.
      rewrite Hactive, Hissuer. cbn [negb].
      rewrite bool_decide_eq_true_2 by done. cbn [negb].
      unfold bind, logger, ret. cbn [database log]. by eexists. }
    by destruct Hrun as [l ->].
Qed.

End Authentication.

End PkiFacts.

(** * The user's library *)

Module LibraryFacts.
Import Py Eff library_views.
#[local] Open Scope eff_scope.

Section UpdateAll.

Context {float db E Instance Listing : Type}.

Variable get_library_entry_by_id : value float -> db -> result E Instance * db.
Variable get_listing_by_id :
  str -> value float -> db -> result E Listing * db.
Variable set_folder : Instance -> value float -> Instance.
Variable set_listing : Instance -> Listing -> Instance.
Variable save : Instance -> db -> result E unit * db.

#[local] Abbreviation value := (Py.value float).
#[local] Abbreviation Response := (library_views.Response float).
#[local] Abbreviation update_instance :=
  (update_instance get_library_entry_by_id get_listing_by_id set_folder
     set_listing save).
#[local] Abbreviation update_each :=
  (update_each get_library_entry_by_id get_listing_by_id set_folder
     set_listing save).
#[local] Abbreviation update_all :=
  (update_all get_library_entry_by_id get_listing_by_id set_folder
     set_listing save).
#[local] Abbreviation validate_input :=
  (@validate_input float db E).

(** One round of the validation. *)
Lemma validate_input_cons (i : value) (items : list value) (s : db) :
  validate_input (i :: items) s =
  match contains i (py "listing") with
  | Raise e => (Raised (Builtin e), s)
  | Ret false => (Returned (Some missing_listing_or_id), s)
  | Ret true =>
      match contains i (py "id") with
      | Raise e => (Raised (Builtin e), s)
      | Ret false => (Returned (Some missing_listing_or_id), s)
      | Ret true => validate_input items s
      end
  end.
Proof.
  cbn [library_views.validate_input]. unfold bind at 1. unfold lift at 1.
  destruct (contains i (py "listing")) as [[|]|e]; try reflexivity.
  cbn [negb]. unfold bind at 1. unfold bind at 1. unfold lift at 1.
  by destruct (contains i (py "id")) as [[|]|e].
Qed.

(** The validation does not touch the database, and the only response it
    makes is the one for a missing key. *)
Lemma validate_input_pure (items : list value) (s : db) :
  snd (validate_input items s) = s /\
  forall response s',
    validate_input items s = (Returned (Some response), s') ->
    response = missing_listing_or_id.
Proof.
  induction items as [|i items [IHs IHr]]; [split; [done|discriminate]|].
  rewrite validate_input_cons.
  destruct (contains i (py "listing")) as [[|]|e];
    [|split; [done|congruence]|split; [done|discriminate]].
  destruct (contains i (py "id")) as [[|]|e];
    [|split; [done|congruence]|split; [done|discriminate]].
  by split.
Qed.

Lemma validate_input_accepted (items : list value) (s : db) :
  forallb accepted items = true ->
  validate_input items s = (Returned None, s).
Proof.
  induction items as [|i items IH]; [done|].
  cbn [forallb]. intros H. apply andb_true_iff in H as [Hi Hitems].
  rewrite validate_input_cons. unfold accepted in Hi.
  destruct (contains i (py "listing")) as [[|]|e]; try discriminate.
  destruct (contains i (py "id")) as [[|]|e]; try discriminate.
  by apply IH.
Qed.

Lemma validate_input_rejected (good : list value) (bad : value)
    (rest : list value) (s : db) :
  forallb accepted good = true ->
  rejected bad = true ->
  validate_input (good ++ bad :: rest) s
  = (Returned (Some missing_listing_or_id), s).
Proof.
  intros Hgood Hbad. induction good as [|i good IH].
  - cbn [app]. rewrite validate_input_cons. unfold rejected in Hbad.
    destruct (contains bad (py "listing")) as [[|]|e]; try discriminate;
      [|reflexivity].
    by destruct (contains bad (py "id")) as [[|]|e].
  - cbn [forallb] in Hgood. apply andb_true_iff in Hgood as [Hi Hgood].
    cbn [app]. rewrite validate_input_cons. unfold accepted in Hi.
    destruct (contains i (py "listing")) as [[|]|e]; try discriminate.
    destruct (contains i (py "id")) as [[|]|e]; try discriminate.
    by apply IH.
Qed.

Lemma update_each_app (username : str) (items items' : list value) (s : db) :
  update_each username (items ++ items') s =
  match update_each username items s with
  | (Returned _, s') => update_each username items' s'
  | (Raised r, s') => (Raised r, s')
  end.
Proof.
  revert s. induction items as [|i items IH]; intros s; [reflexivity|].
  cbn [app library_views.update_each]. unfold bind.
  destruct (update_instance username i s) as [[[]|r] s1]; [|reflexivity].
  apply IH.
Qed.

(** X17.  The validation is all or nothing.  When an entry of the request
    lacks [listing] or [id], and the entries before it have both,
    [update_all] answers 400 with its fixed message and the database is
    untouched: no entry is looked up or saved, not even the valid ones that
    come first. *)
Theorem update_all_rejects_untouched (username : str) (request_data : value)
    (good : list value) (bad : value) (rest : list value) (s : db) :
  iterate request_data = Ret (good ++ bad :: rest) ->
  forallb accepted good = true ->
  rejected bad = true ->
  update_all username request_data s
  = (Returned missing_listing_or_id, s).
Proof.
  intros Hitems Hgood Hbad. unfold library_views.update_all.
  unfold bind at 1. rewrite Hitems. cbn [lift]. unfold bind at 1.
  by rewrite validate_input_rejected.
Qed.

(** X18.  [update_all] returns one of two responses.  Either the 400 for
    a missing key, and then the database is untouched; or a 200 that
    carries the request data as they came, and then every entry has
    [listing] and [id] and the entries were updated one after the other. *)
Theorem update_all_responses (username : str) (request_data : value)
    (response : Response) (s s' : db) :
  update_all username request_data s = (Returned response, s') ->
  (response = missing_listing_or_id /\ s' = s) \/
  (response = {| data := Data request_data; status := HTTP_200_OK |} /\
   exists items,
     iterate request_data = Ret items /\
     validate_input items s = (Returned None, s) /\
     update_each username items s = (Returned tt, s')).
Proof.
  unfold library_views.update_all. unfold bind at 1.
  destruct (iterate request_data) as [items|e] eqn:Hitems; [|discriminate].
  cbn [lift]. unfold bind at 1.
  destruct (validate_input_pure items s) as [Hs Hresp].
  destruct (validate_input items s) as [[[resp|]|r] s1] eqn:Hval;
    cbn [snd] in Hs; subst s1; [| |discriminate].
  - unfold ret. intros [= <- <-]. left. split; [|done]. by apply (Hresp _ s).
  - unfold bind at 1. cbn [lift]. unfold bind at 1.
    destruct (update_each username items s) as [[[]|r] s1] eqn:Hupd;
      [|discriminate].
    unfold ret. intros [= <- <-]. right. split; [done|]. by exists items.
Qed.

(** X19.  The update is not atomic.  An entry that has [listing] and [id]
    but no [folder] passes the validation; the [KeyError] for [folder]
    then leaves [update_all] after the entries before it have been updated
    and the entry itself has been looked up. *)
Theorem update_all_missing_folder (username : str) (request_data : value)
    (good : list value) (fields : list (str * value)) (rest : list value)
    (id : value) (instance : Instance) (s s1 s2 : db) :
  iterate request_data = Ret (good ++ VDict fields :: rest) ->
  forallb accepted (good ++ VDict fields :: rest) = true ->
  dict_lookup (py "id") fields = Some id ->
  dict_lookup (py "folder") fields = None ->
  update_each username good s = (Returned tt, s1) ->
  get_library_entry_by_id id s1 = (Returned instance, s2) ->
  update_all username request_data s
  = (Raised (Builtin (KeyError (py "folder"))), s2).
Proof.
  intros Hitems Hacc Hid Hfolder Hgood Hentry.
  unfold library_views.update_all.
  unfold bind at 1. rewrite Hitems. cbn [lift]. unfold bind at 1.
  rewrite (validate_input_accepted _ s Hacc).
  unfold bind at 1. cbn [lift]. unfold bind at 1.
  rewrite update_each_app, Hgood.
  cbn [library_views.update_each]. unfold bind at 1.
  unfold library_views.update_instance.
  unfold bind at 1. cbn [getitem]. rewrite Hid. cbn [lift].
  unfold bind at 1. rewrite Hentry.
  unfold bind at 1. by rewrite Hfolder.
Qed.

End UpdateAll.
End LibraryFacts.

(** * The new facts on the engine of the source and on sample stores *)

Module SampleRuns.
Import Py PyText all_tokens PluginMain Contract Engine Construction.
Import Eff Samples.

(** An empty profile has no [clearances]. *)
Lemma future_has_access_escapes_witness :
  decide_access (Some (json "{}")) (Some (py "S")) engine
  = (Raise (KeyError (py "clearances")), engine) /\
  engine = engine /\
  KeyError (py "clearances") <> ValueError /\
  (KeyError (py "clearances") = TypeError \/
   KeyError (py "clearances") = OverflowError \/
   KeyError (py "clearances") = KeyError (py "clearances") \/
   KeyError (py "clearances") = KeyError (py "formal_accesses") \/
   KeyError (py "clearances") = KeyError (py "visas") \/
   exists profile,
     Some (json "{}") = Some profile /\
     JsonRef.loads profile = Raise (KeyError (py "clearances"))).
Proof.
  split; [vm_compute; reflexivity|].
  apply (MoreFacts.future_has_access_escapes
           JsonRef.float_add JsonRef.int_to_float JsonRef.loads
           (Some (json "{}")) (Some (py "S")) engine engine
           (KeyError (py "clearances"))).
  vm_compute; reflexivity.
Defined.

Lemma fewer_controls_still_granted_witness :
  decide_access (Some profile_S_ABC_XYZ) (Some (py "S//ABC//XYZ")) engine
  = (Ret true, engine) /\
  decide_access (Some profile_S_ABC_XYZ) (Some (py "S//XYZ//XYZ")) engine
  = (Ret true, engine).
Proof.
  assert (H : decide_access (Some profile_S_ABC_XYZ)
                (Some (py "S//ABC//XYZ")) engine = (Ret true, engine))
    by (vm_compute; reflexivity).
  split; [exact H|].
  apply (MoreFacts.fewer_controls_still_granted
           JsonRef.float_add JsonRef.int_to_float JsonRef.loads
           profile_S_ABC_XYZ (py "S//ABC//XYZ") (py "S//XYZ//XYZ")
           accesses_S_ABC_XYZ (py "S") [py "ABC"; py "XYZ"]
           [py "XYZ"; py "XYZ"] engine).
  - vm_compute; reflexivity.
  - vm_compute; reflexivity.
  - discriminate.
  - discriminate.
  - vm_compute; reflexivity.
  - vm_compute; reflexivity.
  - intros x [<-|[<-|[]]]; right; left; reflexivity.
  - exact H.
Defined.

Lemma more_accesses_still_granted_witness :
  decide_access (Some profile_S_ABC) (Some (py "S//ABC")) engine
  = (Ret true, engine) /\
  decide_access (Some profile_S_ABC_XYZ) (Some (py "S//ABC")) engine
  = (Ret true, engine).
Proof.
  assert (H : decide_access (Some profile_S_ABC) (Some (py "S//ABC")) engine
              = (Ret true, engine))
    by (vm_compute; reflexivity).
  split; [exact H|].
  apply (MoreFacts.more_accesses_still_granted
           JsonRef.float_add JsonRef.int_to_float JsonRef.loads
           profile_S_ABC profile_S_ABC_XYZ (py "S//ABC")
           (VDict [(py "clearances", VList [VStr (py "S")]);
                   (py "formal_accesses", VList [VStr (py "ABC")]);
                   (py "visas", VList [])])
           accesses_S_ABC_XYZ
           [VStr (py "S")] [VStr (py "ABC")] []
           [VStr (py "S")] [VStr (py "ABC")] [VStr (py "XYZ")] engine).
  - vm_compute; reflexivity.
  - vm_compute; reflexivity.
  - reflexivity.
  - reflexivity.
  - reflexivity.
  - reflexivity.
  - reflexivity.
  - reflexivity.
  - intros x Hx; exact Hx.
  - intros x [Hx|[]]; left; exact Hx.
  - exact H.
Defined.

Lemma nameless_token_breaks_tokenizer_witness :
  forallb Spec.has_names (tokens (self nameless_engine)) = false /\
  (forall input_marking delimiter,
     _split_tokens ascii_upper input_marking delimiter nameless_engine
     = (Raise AttributeError, nameless_engine)) /\
  (forall c marking,
     validate_marking ascii_upper (Some (c :: marking)) nameless_engine
     = (Raise AttributeError, nameless_engine)) /\
  validate_marking ascii_upper None nameless_engine
  = (Ret false, nameless_engine) /\
  validate_marking ascii_upper (Some []) nameless_engine
  = (Ret false, nameless_engine).
Proof.
  split; [reflexivity|].
  apply (MoreFacts.nameless_token_breaks_tokenizer ascii_upper
           nameless_engine).
  reflexivity.
Defined.

Lemma split_tokens_any_delimiter_witness :
  _split_tokens ascii_upper (py "S, FOUO") (py ", ") engine
  = (Ret [token_S; token_FOUO], engine).
Proof.
  destruct (MoreFacts.split_tokens_any_delimiter ascii_upper engine
              (py "S, FOUO") (py ", ") ltac:(vm_compute; reflexivity))
    as [Hrun _].
  etrans; [exact Hrun|]. vm_compute; reflexivity.
Defined.

Lemma validate_marking_ignores_case_witness :
  validate_marking ascii_upper (Some (py "secret//x")) engine
  = validate_marking ascii_upper (Some (py "Secret//FOUO")) engine.
Proof.
  apply (MoreFacts.validate_marking_ignores_case ascii_upper engine
           (py "secret//x") (py "Secret//FOUO") (py "secret") (py "Secret")
           [py "x"] [py "FOUO"]).
  - vm_compute; reflexivity.
  - discriminate.
  - discriminate.
  - vm_compute; reflexivity.
  - vm_compute; reflexivity.
  - vm_compute; reflexivity.
Defined.

Lemma validate_marking_true_registered_witness :
  validate (Some (py "secret//FOUO")) engine = (Ret true, engine) /\
  exists seg rest t s,
    str_split (py "secret//FOUO") (py "//") = Ret (seg :: rest) /\
    In t (tokens (self engine)) /\
    is_ClassificationToken t = true /\
    (long_name t = VStr s \/ short_name t = VStr s) /\
    ascii_upper s = ascii_upper seg.
Proof.
  split; [vm_compute; reflexivity|].
  apply (MoreFacts.validate_marking_true_registered ascii_upper engine engine
           (py "secret//FOUO")).
  - vm_compute; reflexivity.
  - vm_compute; reflexivity.
Defined.

Lemma registered_names_resolve_witness :
  In token_S (tokens (self engine)) /\
  long_name token_S = VStr (py "Secret") /\
  exists t' s,
    tokenize (py "Secret") engine = (Ret [t'], engine) /\
    In t' (tokens (self engine)) /\
    (long_name t' = VStr s \/ short_name t' = VStr s) /\
    ascii_upper s = ascii_upper (py "Secret") /\
    (long_name token_S = VStr (py "Secret") -> long_name t' = VStr s).
Proof.
  assert (Hin : In token_S (tokens (self engine)))
    by (vm_compute; tauto).
  split; [exact Hin|]. split; [reflexivity|].
  apply (MoreFacts.registered_names_resolve ascii_upper engine token_S
           (py "Secret")).
  - vm_compute; reflexivity.
  - exact Hin.
  - left; reflexivity.
  - vm_compute; reflexivity.
Defined.

Lemma preprocess_dn_reverses_witness :
  pkiauth._preprocess_dn (py "/C=US/O=Org/CN=John Doe")
  = Ret (py "CN=John Doe, O=Org, C=US").
Proof.
  etrans;
    [apply (PkiFacts.preprocess_dn_reverses 47%N
              [py "C=US"; py "O=Org"; py "CN=John Doe"]);
     [discriminate|repeat constructor]|].
  vm_compute; reflexivity.
Defined.

(** A request that did not come over HTTPS. *)
Lemma authenticate_refuses_bad_headers_witness :
  pkiauth.presented
    (request_of false "SUCCESS" "/C=US/O=Org/CN=John Doe"
       "/C=US/CN=Authority") = None /\
  exists msg,
    sample_authenticate true
      (request_of false "SUCCESS" "/C=US/O=Org/CN=John Doe"
         "/C=US/CN=Authority") office
    = (Returned None,
       {| pkiauth.database := [jdoe; retired];
          pkiauth.log := [(pkiauth.ERROR, msg)] |}).
Proof.
  split; [vm_compute; reflexivity|].
  apply (PkiFacts.authenticate_refuses_bad_headers
           sp_user sp_issuer with_issuer su_name su_active first_by_dn
           save_profile count_username count_username_startswith create_user
           between ascii_lower true
           (request_of false "SUCCESS" "/C=US/O=Org/CN=John Doe"
              "/C=US/CN=Authority") office).
  vm_compute; reflexivity.
Defined.

Lemma authenticate_success_needs_headers_witness :
  fst (sample_authenticate true
         (request_of true "SUCCESS" "/C=US/O=Org/CN=John Doe"
            "/C=US/CN=Authority") office)
  = Returned (Some (sp_user jdoe)) /\
  headers "SUCCESS" "/C=US/O=Org/CN=John Doe" "/C=US/CN=Authority"
    !! py "HTTP_X_SSL_AUTHENTICATED" = Some (py "SUCCESS").
Proof.
  split; [vm_compute; reflexivity|].
  apply (PkiFacts.authenticate_success_needs_headers
           sp_user sp_issuer with_issuer su_name su_active first_by_dn
           save_profile count_username count_username_startswith create_user
           between ascii_lower true
           (request_of true "SUCCESS" "/C=US/O=Org/CN=John Doe"
              "/C=US/CN=Authority")
           office
           (snd (sample_authenticate true
                   (request_of true "SUCCESS" "/C=US/O=Org/CN=John Doe"
                      "/C=US/CN=Authority") office))
           (sp_user jdoe)).
  vm_compute; reflexivity.
Defined.

(** The user of the profile [retired] is not active. *)
Lemma authenticate_refusal_logged_witness :
  fst (sample_authenticate true
         (request_of true "SUCCESS" "/C=US/O=Org/CN=Old Hand"
            "/C=US/CN=Authority") office)
  = Returned None /\
  exists records msg,
    pkiauth.log
      (snd (sample_authenticate true
              (request_of true "SUCCESS" "/C=US/O=Org/CN=Old Hand"
                 "/C=US/CN=Authority") office))
    = [] ++ records ++ [(pkiauth.ERROR, msg)].
Proof.
  split; [vm_compute; reflexivity|].
  apply (PkiFacts.authenticate_refusal_logged
           sp_user sp_issuer with_issuer su_name su_active first_by_dn
           save_profile count_username count_username_startswith create_user
           between ascii_lower true
           (request_of true "SUCCESS" "/C=US/O=Org/CN=Old Hand"
              "/C=US/CN=Authority")
           office).
  vm_compute; reflexivity.
Defined.

Lemma authenticate_known_user_witness :
  fst (sample_authenticate true
         (request_of true "SUCCESS" "/C=US/O=Org/CN=John Doe"
            "/C=US/CN=Authority") office)
  = Returned (Some (sp_user jdoe)) /\
  pkiauth.database
    (snd (sample_authenticate true
            (request_of true "SUCCESS" "/C=US/O=Org/CN=John Doe"
               "/C=US/CN=Authority") office))
  = [jdoe; retired].
Proof.
  apply (PkiFacts.authenticate_known_user
           sp_user sp_issuer with_issuer su_name su_active first_by_dn
           save_profile count_username count_username_startswith create_user
           between ascii_lower true
           (request_of true "SUCCESS" "/C=US/O=Org/CN=John Doe"
              "/C=US/CN=Authority")
           office
           (py "/C=US/O=Org/CN=John Doe") (py "/C=US/CN=Authority")
           (py "CN=John Doe, O=Org, C=US") (py "CN=Authority, C=US")
           jdoe [jdoe; retired]).
  - vm_compute; reflexivity.
  - vm_compute; reflexivity.
  - vm_compute; reflexivity.
  - vm_compute; reflexivity.
  - reflexivity.
  - reflexivity.
Defined.

(** The second entry of the request has no [listing]. *)
Lemma update_all_rejects_untouched_witness :
  sample_update_all
    (VList [VDict [(py "listing", VDict [(py "id", VInt 20)]);
                   (py "folder", VStr (py "maps"));
                   (py "id", VInt 1)];
            VDict [(py "folder", VStr (py "maps")); (py "id", VInt 2)]])
    two_entries
  = (Returned library_views.missing_listing_or_id, two_entries).
Proof.
  apply (LibraryFacts.update_all_rejects_untouched
           entry_by_id listing_by_id put_folder put_listing save_entry
           (py "jdoe") _
           [VDict [(py "listing", VDict [(py "id", VInt 20)]);
                   (py "folder", VStr (py "maps"));
                   (py "id", VInt 1)]]
           (VDict [(py "folder", VStr (py "maps")); (py "id", VInt 2)])
           [] two_entries).
  - reflexivity.
  - vm_compute; reflexivity.
  - vm_compute; reflexivity.
Defined.

Lemma update_all_responses_witness :
  sample_update_all
    (VList [VDict [(py "listing", VDict [(py "id", VInt 20)]);
                   (py "folder", VStr (py "maps"));
                   (py "id", VInt 1)]])
    two_entries
  = (Returned
       {| library_views.data :=
            library_views.Data
              (VList [VDict [(py "listing", VDict [(py "id", VInt 20)]);
                             (py "folder", VStr (py "maps"));
                             (py "id", VInt 1)]]);
          library_views.status := library_views.HTTP_200_OK |},
     [ {| se_id := 1; se_folder := VStr (py "maps"); se_listing := 20 |};
       {| se_id := 2; se_folder := VNone; se_listing := 20 |} ]) /\
  ({| library_views.data :=
        library_views.Data
          (VList [VDict [(py "listing", VDict [(py "id", VInt 20)]);
                         (py "folder", VStr (py "maps"));
                         (py "id", VInt 1)]]);
      library_views.status := library_views.HTTP_200_OK |}
   <> library_views.missing_listing_or_id (float:=Empty_set)).
Proof.
  assert (Hrun :
    sample_update_all
      (VList [VDict [(py "listing", VDict [(py "id", VInt 20)]);
                     (py "folder", VStr (py "maps"));
                     (py "id", VInt 1)]])
      two_entries
    = (Returned
         {| library_views.data :=
              library_views.Data
                (VList [VDict [(py "listing", VDict [(py "id", VInt 20)]);
                               (py "folder", VStr (py "maps"));
                               (py "id", VInt 1)]]);
            library_views.status := library_views.HTTP_200_OK |},
       [ {| se_id := 1; se_folder := VStr (py "maps"); se_listing := 20 |};
         {| se_id := 2; se_folder := VNone; se_listing := 20 |} ]))
    by (vm_compute; reflexivity).
  split; [exact Hrun|].
  destruct (LibraryFacts.update_all_responses
              entry_by_id listing_by_id put_folder put_listing save_entry
              (py "jdoe") _ _ _ _ Hrun) as [[Hresp _]|[_ _]].
  - discriminate Hresp.
  - discriminate.
Defined.

(** The first entry is saved, the second has no [folder]. *)
Lemma update_all_missing_folder_witness :
  sample_update_all
    (VList [VDict [(py "listing", VDict [(py "id", VInt 20)]);
                   (py "folder", VStr (py "maps"));
                   (py "id", VInt 1)];
            VDict [(py "listing", VDict [(py "id", VInt 10)]);
                   (py "id", VInt 2)]])
    two_entries
  = (Raised (Builtin (KeyError (py "folder"))),
     [ {| se_id := 1; se_folder := VStr (py "maps"); se_listing := 20 |};
       {| se_id := 2; se_folder := VNone; se_listing := 20 |} ]).
Proof.
  apply (LibraryFacts.update_all_missing_folder
           entry_by_id listing_by_id put_folder put_listing save_entry
           (py "jdoe") _
           [VDict [(py "listing", VDict [(py "id", VInt 20)]);
                   (py "folder", VStr (py "maps"));
                   (py "id", VInt 1)]]
           [(py "listing", VDict [(py "id", VInt 10)]); (py "id", VInt 2)]
           [] (VInt 2)
           {| se_id := 2; se_folder := VNone; se_listing := 20 |}
           two_entries
           [ {| se_id := 1; se_folder := VStr (py "maps"); se_listing := 20 |};
             {| se_id := 2; se_folder := VNone; se_listing := 20 |} ]
           [ {| se_id := 1; se_folder := VStr (py "maps"); se_listing := 20 |};
             {| se_id := 2; se_folder := VNone; se_listing := 20 |} ]).
  - reflexivity.
  - vm_compute; reflexivity.
  - vm_compute; reflexivity.
  - vm_compute; reflexivity.
  - vm_compute; reflexivity.
  - vm_compute; reflexivity.
Defined.

End SampleRuns.
